(** * prepare_customers_data: the cleaning pipeline over a pandas DataFrame

    Shallow embedding of
    [src/analytics_project/data_preparation/prepare_customers_data.py]:
    [remove_duplicates], [handle_missing_values], [remove_outliers] and the
    cleaning part of [main], together with the parts of pandas, numpy and
    scipy these functions call.

    Modelling choices, all stated where they are made:
    - a float64 is a primitive binary64 float of the kernel, so NaN, the
      infinities, signed zeros and rounding are those of IEEE 754;
    - a [str] is a [string] with one character per code point below 256;
    - a DataFrame is column-major, as in pandas: an index and a list of
      labelled, typed columns (the dtypes [read_csv] infers: int64, float64,
      bool, object);
    - logging is a writer effect and exceptions are outcomes, gathered in the
      monad [Run]. *)

From Stdlib Require Import String Ascii List ZArith Bool Lia Floats Sorted.
Import ListNotations.

Set Implicit Arguments.

(* ================================================================== *)
(** * Part I: definitions                                              *)
(* ================================================================== *)

(** ** numpy float64 *)
Module F64.

(** [float(z)] for a Python int or an int64: round to nearest, ties to
    even. *)
Definition of_Z (z : Z) : float :=
  SF2Prim (binary_normalize prec emax z 0 false).

Definition of_nat (n : nat) : float := of_Z (Z.of_nat n).

(** [np.isnan] / [pd.isna] on a float64. *)
Definition isnan (x : float) : bool := negb (x =? x)%float.

(** Equality of two float64 keys in a pandas hash table (factorize,
    duplicated): [a == b], or both NaN.  So [0.0] and [-0.0] are one key
    and all NaNs are one key. *)
Definition key_eqb (a b : float) : bool :=
  (a =? b)%float || (isnan a && isnan b).

(** [np.add.reduce] over one axis.  Elements are accumulated left to right
    from [0.0]; numpy may associate the additions differently (pairwise
    blocks), which changes rounding only. *)
Definition sum (l : list float) : float := fold_left add l 0%float.

End F64.

(** ** Python str *)
Module PyStr.

(** [str.isspace] on one character, for code points below 256. *)
Definition isspace (c : ascii) : bool :=
  let n := N_of_ascii c in
  (((9 <=? n) && (n <=? 13)) || ((28 <=? n) && (n <=? 31)) || (n =? 32)
   || (n =? 133) || (n =? 160))%N.

Fixpoint lstrip (s : string) : string :=
  match s with
  | EmptyString => EmptyString
  | String c s' => if isspace c then lstrip s' else s
  end.

Fixpoint rstrip (s : string) : string :=
  match s with
  | EmptyString => EmptyString
  | String c s' =>
      match rstrip s' with
      | EmptyString => if isspace c then EmptyString else String c EmptyString
      | r => String c r
      end
  end.

(** [str.strip()] with no argument. *)
Definition strip (s : string) : string := rstrip (lstrip s).

End PyStr.

(** ** Logging and exceptions *)

(** One record per [logger.info] call of the cleaning code.  The payload is
    the value that the f-string formats; the rendering (such as [:.2f] for a
    mean) belongs to the sink. *)
Inductive Event : Type :=
| InitialColumns (cols : list string)
| InitialShape (shape : Z * Z)
| RenamedColumns (changed_columns : list (string * string))
| RemovedDuplicates (count : Z)
| FilledMean (col : string) (mean_value : float)
| FilledMode (col : string) (mode_value : string)
| OutliersStart (shape : Z * Z)
| OutliersRemoved (removed_count : Z) (shape : Z * Z)
| OutliersEnd
| OriginalShape (shape : Z * Z)
| CleanedShape (shape : Z * Z).

Inductive Exn : Type :=
| KeyError (key : string).

Inductive Outcome (A : Type) : Type :=
| Returned (a : A)
| Raised (e : Exn).
Arguments Raised {A} e.

(** A computation that logs, then returns or raises. *)
Definition Run (A : Type) : Type := (list Event * Outcome A)%type.

Definition ret {A} (a : A) : Run A := ([], Returned a).

Definition raise {A} (e : Exn) : Run A := ([], Raised e).

Definition bind {A B} (m : Run A) (k : A -> Run B) : Run B :=
  match m with
  | (l, Returned a) => let (l', o) := k a in (l ++ l', o)
  | (l, Raised e) => (l, Raised e)
  end.

Definition info (ev : Event) : Run unit := ([ev], Returned tt).

Declare Scope run_scope.
Delimit Scope run_scope with run.
Notation "x <- m ;; k" := (bind m (fun x => k))
  (at level 61, m at next level, right associativity) : run_scope.
Notation "m ;;; k" := (bind m (fun _ => k))
  (at level 61, right associativity) : run_scope.
Open Scope run_scope.

(** A [for] loop whose body updates the frame and may log or raise. *)
Fixpoint for_each {A S} (body : S -> A -> Run S) (l : list A) (s : S) : Run S :=
  match l with
  | [] => ret s
  | x :: l' => s' <- body s x ;; for_each body l' s'
  end.

(** ** numpy arrays *)
Module Np.

(** Boolean-mask selection along an axis ([a[mask]], [np.compress]). *)
Fixpoint compress {A} (mask : list bool) (l : list A) : list A :=
  match mask, l with
  | b :: m, x :: xs => if b then x :: compress m xs else compress m xs
  | _, _ => []
  end.

(** The [n] rows of a 2-D array kept column by column. *)
Fixpoint rows_of {A} (d : A) (n : nat) (cols : list (list A)) : list (list A) :=
  match n with
  | O => []
  | S k => map (hd d) cols :: rows_of d k (map (@tl A) cols)
  end.

(** [a.size] of an [n] by [length cols] array. *)
Definition size {A} (n : nat) (cols : list (list A)) : nat := n * length cols.

(** [a.mean(axis=0)] for one column. *)
Definition mean (a : list float) : float :=
  (F64.sum a / F64.of_nat (length a))%float.

(** [a.std(axis=0, ddof=0)] for one column: numpy's [_var], then [sqrt]. *)
Definition std (a : list float) : float :=
  let arrmean := mean a in
  let x := map (fun v => (v - arrmean)%float) a in
  let x := map (fun v => (v * v)%float) x in
  PrimFloat.sqrt (F64.sum x / F64.of_nat (length a))%float.

(** [b.all(axis=1)] for an [n]-row boolean array. *)
Definition all_axis1 (n : nat) (cols : list (list bool)) : list bool :=
  map (forallb (fun b => b)) (rows_of true n cols).

(** Ascending [np.sort] of an object array of strings (code-point order). *)
Fixpoint insert_sorted (s : string) (l : list string) : list string :=
  match l with
  | [] => [s]
  | x :: l' => if String.leb s x then s :: l else x :: insert_sorted s l'
  end.

Definition sort (l : list string) : list string :=
  fold_right insert_sorted [] l.

End Np.

(** ** pandas *)
Module Pd.

(** A cell as a Python object, the form in which a row is compared. *)
Inductive Cell : Type :=
| VInt (z : Z)
| VFloat (x : float)
| VBool (b : bool)
| VStr (s : string).

(** A column (a Series' values) with its dtype.  A missing cell is NaN: a
    float64 column holds it as a float, and an object column read from a
    file holds text or NaN, written [Some s] or [None]. *)
Inductive Column : Type :=
| ColInt64 (v : list Z)
| ColFloat64 (v : list float)
| ColBool (v : list bool)
| ColObject (v : list (option string)).

(** A DataFrame: the index (row labels) and the labelled columns, in
    column order.  Filtering rows keeps the labels of the surviving rows. *)
Record DataFrame : Type := mkDataFrame {
  index : list Z;
  data : list (string * Column)
}.

Definition obj_cell (o : option string) : Cell :=
  match o with
  | Some s => VStr s
  | None => VFloat nan
  end.

Definition cells (c : Column) : list Cell :=
  match c with
  | ColInt64 v => map VInt v
  | ColFloat64 v => map VFloat v
  | ColBool v => map VBool v
  | ColObject v => map obj_cell v
  end.

Definition col_length (c : Column) : nat := length (cells c).

(** [pd.isna] on a cell. *)
Definition isna (c : Cell) : bool :=
  match c with
  | VFloat x => F64.isnan x
  | _ => false
  end.

(** [len(df)], [df.columns], [df.shape], [df.empty]. *)
Definition len (df : DataFrame) : nat := length (index df).

Definition columns (df : DataFrame) : list string := map fst (data df).

Definition shape (df : DataFrame) : Z * Z :=
  (Z.of_nat (len df), Z.of_nat (length (data df))).

Definition empty (df : DataFrame) : bool :=
  (len df =? 0)%nat || (length (data df) =? 0)%nat.

(** The invariant of a DataFrame whose rows map column names to values:
    unique labels, at least one column (a file with a header row), and
    every column as long as the index. *)
Definition wf (df : DataFrame) : Prop :=
  NoDup (columns df) /\ data df <> [] /\
  Forall (fun nc => col_length (snd nc) = len df) (data df).

(** The rows of the frame, in index order, each as the list of its cells
    in column order. *)
Definition rows (df : DataFrame) : list (list Cell) :=
  Np.rows_of (VFloat nan) (len df) (map (fun nc => cells (snd nc)) (data df)).

(** *** Row selection by a boolean mask: [df[mask]] *)
Definition col_compress (mask : list bool) (c : Column) : Column :=
  match c with
  | ColInt64 v => ColInt64 (Np.compress mask v)
  | ColFloat64 v => ColFloat64 (Np.compress mask v)
  | ColBool v => ColBool (Np.compress mask v)
  | ColObject v => ColObject (Np.compress mask v)
  end.

Definition getitem_bool (df : DataFrame) (mask : list bool) : DataFrame :=
  {| index := Np.compress mask (index df);
     data := map (fun nc => (fst nc, col_compress mask (snd nc))) (data df) |}.

(** *** Column selection *)

(** [df.select_dtypes(include=["number"])] takes the int64 and float64
    columns, [include=["object"]] the object columns; a bool column is in
    neither. *)
Definition is_number (c : Column) : bool :=
  match c with
  | ColInt64 _ | ColFloat64 _ => true
  | _ => false
  end.

Definition is_object (c : Column) : bool :=
  match c with
  | ColObject _ => true
  | _ => false
  end.

Definition select_dtypes (include : Column -> bool) (df : DataFrame) : DataFrame :=
  {| index := index df;
     data := filter (fun nc => include (snd nc)) (data df) |}.

(** [df[col]] for one label: the column, or [KeyError]. *)
Fixpoint lookup (col : string) (d : list (string * Column)) : option Column :=
  match d with
  | [] => None
  | (n, c) :: d' => if String.eqb col n then Some c else lookup col d'
  end.

Definition getitem (df : DataFrame) (col : string) : Run Column :=
  match lookup col (data df) with
  | Some c => ret c
  | None => raise (KeyError col)
  end.

(** [df[cols]] for a list of labels: the columns carrying each label, label
    by label. *)
Definition getitem_list (df : DataFrame) (cols : list string) : DataFrame :=
  {| index := index df;
     data := flat_map (fun col => filter (fun nc => String.eqb col (fst nc)) (data df)) cols |}.

(** Writing through the Series that [df[col]] returns, as
    [df[col].fillna(value, inplace=True)] does in pandas before 3.0 (no
    copy-on-write): the column labelled [col] is replaced in the frame
    itself. *)
Definition store (df : DataFrame) (col : string) (c : Column) : DataFrame :=
  {| index := index df;
     data := map (fun nc => if String.eqb col (fst nc) then (fst nc, c) else nc) (data df) |}.

(** [df.columns = labels]. *)
Definition set_columns (df : DataFrame) (labels : list string) : DataFrame :=
  {| index := index df;
     data := map (fun p => (fst p, snd (snd p))) (combine labels (data df)) |}.

(** [np.asanyarray] of a frame of numeric columns: a float64 2-D array,
    kept column by column. *)
Definition to_float (c : Column) : list float :=
  match c with
  | ColInt64 v => map F64.of_Z v
  | ColFloat64 v => v
  | ColBool v => map (fun b : bool => if b then 1%float else 0%float) v
  | ColObject v => map (fun _ => nan) v
  end.

Definition values (df : DataFrame) : list (list float) :=
  map (fun nc => to_float (snd nc)) (data df).

(** *** Series.mean, Series.mode, Series.fillna *)

(** [Series.mean()] with [skipna=True]: the sum of the non-missing values
    over their count, NaN when there is none. *)
Definition dropna_float (v : list float) : list float :=
  filter (fun x => negb (F64.isnan x)) v.

Definition mean (c : Column) : float :=
  let v := dropna_float (to_float c) in
  if (0 <? length v)%nat then (F64.sum v / F64.of_nat (length v))%float
  else nan.

(** The hash table of [Series.mode]: each distinct value with its number
    of occurrences, in order of first occurrence. *)
Fixpoint count_up (k : string) (t : list (string * nat)) : list (string * nat) :=
  match t with
  | [] => [(k, 1%nat)]
  | (k', n) :: t' =>
      if String.eqb k k' then (k', S n) :: t' else (k', n) :: count_up k t'
  end.

Definition value_counts (l : list string) : list (string * nat) :=
  fold_left (fun t k => count_up k t) l [].

(** The count the table holds for a key, zero when the key is absent. *)
Fixpoint table_count (k : string) (t : list (string * nat)) : nat :=
  match t with
  | [] => 0%nat
  | (k', n) :: t' => if String.eqb k k' then n else table_count k t'
  end.

Definition dropna_obj (v : list (option string)) : list string :=
  flat_map (fun o => match o with Some s => [s] | None => [] end) v.

(** [Series.mode()] with [dropna=True] on an object column: the values of
    maximal count, sorted. *)
Definition mode (v : list (option string)) : list string :=
  let t := value_counts (dropna_obj v) in
  let max_count := fold_right Nat.max 0%nat (map snd t) in
  Np.sort (map fst (filter (fun kn => (snd kn =? max_count)%nat) t)).

(** [s[0]] on the Series of modes. *)
Definition first (modes : list string) : Run string :=
  match modes with
  | m :: _ => ret m
  | [] => raise (KeyError "0")
  end.

(** [Series.fillna(value)]: each missing cell becomes [value]; an int64 or
    bool column has none. *)
Definition fillna_float (value : float) (c : Column) : Column :=
  match c with
  | ColFloat64 v => ColFloat64 (map (fun x => if F64.isnan x then value else x) v)
  | _ => c
  end.

Definition fillna_str (value : string) (c : Column) : Column :=
  match c with
  | ColObject v =>
      ColObject (map (fun o => match o with Some _ => o | None => Some value end) v)
  | _ => c
  end.

(** *** DataFrame.duplicated, DataFrame.drop_duplicates *)

Definition cell_eqb (a b : Cell) : bool :=
  match a, b with
  | VInt x, VInt y => Z.eqb x y
  | VFloat x, VFloat y => F64.key_eqb x y
  | VBool x, VBool y => Bool.eqb x y
  | VStr x, VStr y => String.eqb x y
  | _, _ => false
  end.

Fixpoint row_eqb (r1 r2 : list Cell) : bool :=
  match r1, r2 with
  | [], [] => true
  | a :: r1', b :: r2' => cell_eqb a b && row_eqb r1' r2'
  | _, _ => false
  end.

(** [duplicated(keep="first")]: one pass over the rows with the table of
    the keys seen so far; a row is marked when its key is in the table and
    enters the table otherwise. *)
Fixpoint duplicated_from (seen : list (list Cell)) (keys : list (list Cell)) : list bool :=
  match keys with
  | [] => []
  | k :: ks =>
      if existsb (row_eqb k) seen then true :: duplicated_from seen ks
      else false :: duplicated_from (k :: seen) ks
  end.

Definition duplicated (df : DataFrame) : list bool :=
  if empty df then [] else duplicated_from [] (rows df).

Definition drop_duplicates (df : DataFrame) : DataFrame :=
  if empty df then df else getitem_bool df (map negb (duplicated df)).

End Pd.

(** ** scipy.stats *)
Module Stats.

(** [zscore] of one column of the array, as [zmap(a, a, axis=0, ddof=0)]
    computes it (scipy 1.7 to 1.14): a column whose values all equal its first one is constant
    and its scores are NaN; otherwise each score is the value minus the
    population mean, over the population standard deviation. *)
Definition isconst (a : list float) : bool :=
  match a with
  | [] => true
  | a0 :: _ => forallb (fun x => (x =? a0)%float) a
  end.

Definition zscore_column (a : list float) : list float :=
  let mn := Np.mean a in
  let std := Np.std a in
  let isconst := isconst a in
  let std := if isconst then 1%float else std in
  let z := map (fun x => ((x - mn) / std)%float) a in
  if isconst then map (fun _ => nan) z else z.

(** [zscore(a)] on an [n]-row array: an array without elements comes back
    as an array of the same shape. *)
Definition zscore (n : nat) (a : list (list float)) : list (list float) :=
  if (Np.size n a =? 0)%nat then a else map zscore_column a.

End Stats.

(** ** prepare_customers_data.py *)
Module Prepare.
Import Pd.

(** [remove_duplicates(df)]. *)
Definition remove_duplicates (df : DataFrame) : Run DataFrame :=
  let initial_count := Z.of_nat (len df) in
  let df_cleaned := drop_duplicates df in
  info (RemovedDuplicates (initial_count - Z.of_nat (len df_cleaned))) ;;;
  ret df_cleaned.

(** One turn of the loop over [numeric_cols]: the mean of the column, the
    fill written into the frame, the message. *)
Definition fill_with_mean (df : DataFrame) (col : string) : Run DataFrame :=
  s <- getitem df col ;;
  let mean_value := mean s in
  let df := store df col (fillna_float mean_value s) in
  info (FilledMean col mean_value) ;;;
  ret df.

(** One turn of the loop over [categorical_cols]; [mode()[0]] raises when
    the column has no mode. *)
Definition fill_with_mode (df : DataFrame) (col : string) : Run DataFrame :=
  s <- getitem df col ;;
  mode_value <- first (match s with ColObject v => mode v | _ => [] end) ;;
  let df := store df col (fillna_str mode_value s) in
  info (FilledMode col mode_value) ;;;
  ret df.

(** [handle_missing_values(df)]: the frame is filled in place and
    returned. *)
Definition handle_missing_values (df : DataFrame) : Run DataFrame :=
  let numeric_cols := columns (select_dtypes is_number df) in
  df <- for_each fill_with_mean numeric_cols df ;;
  let categorical_cols := columns (select_dtypes is_object df) in
  df <- for_each fill_with_mode categorical_cols df ;;
  ret df.

(** The mask of [remove_outliers]:
    [(abs(stats.zscore(df[numeric_cols])) < z_threshold).all(axis=1)]. *)
Definition outlier_mask (df : DataFrame) (z_threshold : float) : list bool :=
  let numeric_cols := columns (select_dtypes is_number df) in
  let z := Stats.zscore (len df) (values (getitem_list df numeric_cols)) in
  Np.all_axis1 (len df)
    (map (map (fun x => (abs x <? z_threshold)%float)) z).

(** [remove_outliers(df, z_threshold)]. *)
Definition remove_outliers (df : DataFrame) (z_threshold : float) : Run DataFrame :=
  info (OutliersStart (shape df)) ;;;
  let df_cleaned := getitem_bool df (outlier_mask df z_threshold) in
  let removed_count := (Z.of_nat (len df) - Z.of_nat (len df_cleaned))%Z in
  info (OutliersRemoved removed_count (shape df_cleaned)) ;;;
  info OutliersEnd ;;;
  ret df_cleaned.

(** The default of the parameter [z_threshold]. *)
Definition default_z_threshold : float := 3%float.

(** [main()] between [read_raw_data] and [save_prepared_data]: takes the
    frame that was read and returns the frame that is saved. *)
Definition main (df : DataFrame) : Run DataFrame :=
  let original_shape := shape df in
  info (InitialColumns (columns df)) ;;;
  info (InitialShape (shape df)) ;;;
  let original_columns := columns df in
  let df := set_columns df (map PyStr.strip (columns df)) in
  let changed_columns :=
    filter (fun on => negb (String.eqb (fst on) (snd on)))
           (combine original_columns (columns df)) in
  (match changed_columns with
   | [] => ret tt
   | _ => info (RenamedColumns changed_columns)
   end) ;;;
  df <- remove_duplicates df ;;
  df <- handle_missing_values df ;;
  df <- remove_outliers df default_z_threshold ;;
  info (OriginalShape original_shape) ;;;
  info (CleanedShape (shape df)) ;;;
  ret df.

End Prepare.

(** ** Frames used as examples *)
Module Samples.
Import Pd.

Definition range (n : nat) : list Z := map Z.of_nat (seq 0 n).

(** Rows [{a:1,b:"x"}], [{a:1,b:"x"}], [{a:2,b:"y"}]. *)
Definition df_dup : DataFrame :=
  {| index := range 3;
     data := [("a", ColInt64 [1; 1; 2]%Z);
              ("b", ColObject [Some "x"; Some "x"; Some "y"])]%string |}.

(** A numeric column [1, 2, missing, 3]. *)
Definition df_mean : DataFrame :=
  {| index := range 4;
     data := [("a"%string, ColFloat64 [1; 2; nan; 3]%float)] |}.

(** A categorical column ["x", "x", missing, "y"]. *)
Definition df_mode : DataFrame :=
  {| index := range 4;
     data := [("c", ColObject [Some "x"; Some "x"; None; Some "y"])]%string |}.

(** A categorical column ["y", "x", missing]: two values of count one, the
    first in row order being the greater one. *)
Definition df_tie : DataFrame :=
  {| index := range 3;
     data := [("c", ColObject [Some "y"; Some "x"; None])]%string |}.

(** A numeric column [10, 12, 11, 13, 1000]. *)
Definition df_1000 : DataFrame :=
  {| index := range 5;
     data := [("v"%string, ColFloat64 [10; 12; 11; 13; 1000]%float)] |}.

(** A constant numeric column [5, 5, 5, 5]. *)
Definition df_const : DataFrame :=
  {| index := range 4;
     data := [("k"%string, ColFloat64 [5; 5; 5; 5]%float)] |}.

(** A constant numeric column next to a varying one. *)
Definition df_const2 : DataFrame :=
  {| index := range 4;
     data := [("k"%string, ColFloat64 [5; 5; 5; 5]%float);
              ("v"%string, ColFloat64 [1; 2; 3; 4]%float)] |}.


(** A frame without numeric columns. *)
Definition df_text : DataFrame :=
  {| index := range 2;
     data := [("name", ColObject [Some "ann"; Some "bob"]);
              ("flag", ColBool [true; false])]%string |}.

(** A frame with padded column names. *)
Definition df_padded : DataFrame :=
  {| index := range 2;
     data := [(" id ", ColInt64 [1; 2]%Z);
              ("name", ColObject [Some "ann"; None]);
              ("spend  ", ColFloat64 [10; nan]%float)]%string |}.

End Samples.
(** ** The specification's wording

    Definitions that follow the words of the specification, to be compared
    with the functions above. *)
Module Spec.
Import Pd.

(** Duplicate removal: a row stays when no earlier row of the table, kept or
    not, has the same value in every column. *)
Fixpoint first_occurrences_from (earlier rs : list (list Cell)) : list (list Cell) :=
  match rs with
  | [] => []
  | r :: rs' =>
      if existsb (row_eqb r) earlier
      then first_occurrences_from (earlier ++ [r]) rs'
      else r :: first_occurrences_from (earlier ++ [r]) rs'
  end.

Definition first_occurrences (rs : list (list Cell)) : list (list Cell) :=
  first_occurrences_from [] rs.

(** The numeric columns of a table, as number sequences. *)
Definition numeric_columns (df : DataFrame) : list (list float) :=
  map (fun nc => to_float (snd nc)) (filter (fun nc => is_number (snd nc)) (data df)).

(** Population mean and population standard deviation of a column. *)
Definition population_mean (a : list float) : float :=
  (F64.sum a / F64.of_nat (length a))%float.

Definition population_std (a : list float) : float :=
  let mu := population_mean a in
  PrimFloat.sqrt
    (F64.sum (map (fun v => ((v - mu) * (v - mu))%float) a) / F64.of_nat (length a))%float.

(** The z-score of the value in row [i] of a column: the value minus the
    population mean, over the population standard deviation.  A constant
    column has no spread and its z-scores are undefined, which is NaN. *)
Definition z_score (a : list float) (i : nat) : float :=
  if Stats.isconst a then nan
  else ((nth i a nan - population_mean a) / population_std a)%float.

(** Row [i] is within the threshold when, in every numeric column, its
    absolute z-score is strictly below the threshold. *)
Definition within_threshold (df : DataFrame) (t : float) (i : nat) : bool :=
  forallb (fun a => (abs (z_score a i) <? t)%float) (numeric_columns df).

(** Number of occurrences of a value among the non-missing values. *)
Definition occurrences (s : string) (l : list string) : nat :=
  count_occ string_dec l s.

(** A most frequent value: none occurs more often. *)
Definition most_frequent (s : string) (l : list string) : bool :=
  forallb (fun w => (occurrences w l <=? occurrences s l)%nat) l.

(** The mode with ties broken by row order: the first value of the column
    that is a most frequent one. *)
Definition mode_first_in_row_order (v : list (option string)) : option string :=
  let l := dropna_obj v in
  find (fun s => most_frequent s l) l.

(** The arithmetic mean of the non-missing values of a numeric column. *)
Definition mean_of_non_missing (v : list float) : float :=
  let present := filter (fun x => negb (F64.isnan x)) v in
  (F64.sum present / F64.of_nat (length present))%float.


Definition no_missing (c : Column) : bool :=
  forallb (fun x => negb (isna x)) (cells c).

(** A cell is left alone unless it was missing. *)
Definition kept_unless_missing (before after : Cell) : Prop :=
  isna before = false -> after = before.

(** Imputation, column by column: a numeric column has its missing cells
    replaced by its mean, a categorical column by its mode, and the other
    cells stay. *)
Definition imputed (c : Column) : Column :=
  match c with
  | ColInt64 _ | ColFloat64 _ => fillna_float (mean c) c
  | ColObject v =>
      match mode v with
      | m :: _ => fillna_str m c
      | [] => c
      end
  | ColBool _ => c
  end.

End Spec.


(** ** Further frames used as examples *)
Module MoreSamples.
Import Pd Samples.

(** A file with a header row and no data rows. *)
Definition df_header : DataFrame :=
  {| index := [];
     data := [("name", ColObject []); ("spend", ColFloat64 [])]%string |}.

(** A categorical column without any value. *)
Definition df_unnamed : DataFrame :=
  {| index := range 2;
     data := [("spend", ColFloat64 [1; nan]%float);
              ("name", ColObject [None; None])]%string |}.

(** A numeric column with a missing value next to complete columns. *)
Definition df_gap : DataFrame :=
  {| index := range 4;
     data := [("spend", ColFloat64 [1; nan; 3; 4]%float);
              ("visits", ColInt64 [1; 2; 3; 5]%Z)]%string |}.

(** Two numeric columns with spread. *)
Definition df_spread : DataFrame :=
  {| index := range 4;
     data := [("spend", ColFloat64 [1; 2; 3; 4]%float);
              ("visits", ColInt64 [1; 2; 3; 5]%Z)]%string |}.

(** Rows that differ, then repeat, with a missing cell among them. *)
Definition df_repeat : DataFrame :=
  {| index := range 5;
     data := [("name", ColObject [Some "ann"; None; Some "ann"; None; Some "bob"]);
              ("spend", ColFloat64 [1; nan; 1; nan; 2]%float)]%string |}.

(** A table with a single row. *)
Definition df_one : DataFrame :=
  {| index := range 1;
     data := [("name", ColObject [Some "ann"]);
              ("spend", ColFloat64 [7]%float)]%string |}.

(** A header with padded names and no data rows. *)
Definition df_padded_header : DataFrame :=
  {| index := [];
     data := [(" name", ColObject []); ("spend ", ColFloat64 [])]%string |}.

End MoreSamples.

(** ** Column dtypes *)
Module Dtypes.
Import Pd.

(** [Series.dtype] for the dtypes of the model. *)
Inductive DType : Type :=
| int64
| float64
| bool_
| object_.

Definition dtype (c : Column) : DType :=
  match c with
  | ColInt64 _ => int64
  | ColFloat64 _ => float64
  | ColBool _ => bool_
  | ColObject _ => object_
  end.

(** [df.dtypes], in column order. *)
Definition dtypes (df : DataFrame) : list DType :=
  map (fun nc => dtype (snd nc)) (data df).

End Dtypes.

(* ================================================================== *)
(** * Part II: properties                                              *)
(* ================================================================== *)

(** ** float64 comparisons *)
Module F64Facts.
Import F64.

Local Ltac cmp_cases :=
  repeat match goal with
    | H : context [Z.compare ?a ?b] |- _ =>
        destruct (Z.compare_spec a b); try discriminate H
    | |- context [Z.compare ?a ?b] =>
        destruct (Z.compare_spec a b)
    | H : context [Pos.compare_cont Eq ?a ?b] |- _ =>
        change (Pos.compare_cont Eq a b) with (Pos.compare a b) in H;
        destruct (Pos.compare_spec a b); try discriminate H
    | |- context [Pos.compare_cont Eq ?a ?b] =>
        change (Pos.compare_cont Eq a b) with (Pos.compare a b);
        destruct (Pos.compare_spec a b)
    end.

Local Ltac sf_cases x :=
  let s := fresh "s" in
  destruct x as [s|s| |s ? ?]; try destruct s.

Lemma SFltb_leb_trans (x y z : spec_float) :
  SFltb x y = true -> SFleb y z = true -> SFltb x z = true.
Proof.
  unfold SFltb, SFleb, SFcompare.
  sf_cases x; sf_cases y; sf_cases z; simpl;
    try discriminate; try reflexivity; intros H1 H2;
    cmp_cases; subst; simpl in *;
    try reflexivity; try discriminate; try lia.
Qed.

Lemma SFeqb_sym (x y : spec_float) : SFeqb x y = SFeqb y x.
Proof.
  unfold SFeqb, SFcompare.
  sf_cases x; sf_cases y; simpl; try reflexivity;
    cmp_cases; subst; simpl in *; try reflexivity; try lia.
Qed.

Lemma SFeqb_trans (x y z : spec_float) :
  SFeqb x y = true -> SFeqb y z = true -> SFeqb x z = true.
Proof.
  unfold SFeqb, SFcompare.
  sf_cases x; sf_cases y; sf_cases z; simpl;
    try discriminate; try reflexivity; intros H1 H2;
    cmp_cases; subst; simpl in *;
    try reflexivity; try discriminate; try lia.
Qed.

(** A NaN is equal to nothing. *)
Lemma SFeqb_nan_l (x y : spec_float) :
  SFeqb x x = false -> SFeqb x y = false.
Proof.
  unfold SFeqb, SFcompare.
  sf_cases x; sf_cases y; simpl; try reflexivity; try discriminate;
    intros H; cmp_cases; subst; simpl in *; try reflexivity; try discriminate; try lia.
Qed.

Lemma ltb_leb_trans (x y z : float) :
  (x <? y)%float = true -> (y <=? z)%float = true -> (x <? z)%float = true.
Proof.
  rewrite !ltb_spec, leb_spec. apply SFltb_leb_trans.
Qed.

Lemma key_eqb_refl (x : float) : key_eqb x x = true.
Proof.
  unfold key_eqb, isnan. destruct (x =? x)%float; reflexivity.
Qed.

Lemma key_eqb_sym (x y : float) : key_eqb x y = key_eqb y x.
Proof.
  unfold key_eqb, isnan. rewrite !eqb_spec.
  rewrite (SFeqb_sym (Prim2SF x) (Prim2SF y)).
  rewrite (andb_comm (negb (SFeqb (Prim2SF x) (Prim2SF x)))). reflexivity.
Qed.

Lemma key_eqb_trans (x y z : float) :
  key_eqb x y = true -> key_eqb y z = true -> key_eqb x z = true.
Proof.
  unfold key_eqb, isnan. rewrite !eqb_spec.
  set (a := Prim2SF x). set (b := Prim2SF y). set (c := Prim2SF z).
  destruct (SFeqb a b) eqn:Hab; simpl.
  - intros _. destruct (SFeqb b c) eqn:Hbc; simpl.
    + intros _. rewrite (SFeqb_trans _ _ _ Hab Hbc). reflexivity.
    + destruct (SFeqb b b) eqn:Hbb; simpl; [discriminate|].
      rewrite (SFeqb_sym a b), (SFeqb_nan_l _ a Hbb) in Hab. discriminate.
  - destruct (SFeqb a a) eqn:Haa; simpl; [discriminate|].
    destruct (SFeqb b b) eqn:Hbb; simpl; [discriminate|]. intros _.
    rewrite (SFeqb_nan_l _ c Hbb). simpl. intros H. rewrite H.
    apply orb_true_r.
Qed.

(** The constant [nan] is a NaN. *)
Lemma isnan_nan : isnan nan = true.
Proof. reflexivity. Qed.

(** No comparison with a NaN on the left holds. *)
Lemma ltb_nan_l (t : float) : (abs nan <? t)%float = false.
Proof.
  rewrite ltb_spec, abs_spec. reflexivity.
Qed.

End F64Facts.

(** ** Masks and rows *)
Module NpFacts.
Import Np.

Lemma compress_nil_r {A} (mask : list bool) : compress mask (@nil A) = [].
Proof. destruct mask; reflexivity. Qed.

Lemma compress_map {A B} (f : A -> B) (mask : list bool) (l : list A) :
  compress mask (map f l) = map f (compress mask l).
Proof.
  revert l. induction mask as [|b m IH]; intros [|x xs]; simpl; trivial.
  destruct b; simpl; now rewrite IH.
Qed.

Lemma compress_length {A} (mask : list bool) (l : list A) :
  length l = length mask ->
  length (compress mask l) = length (filter (fun b => b) mask).
Proof.
  revert l. induction mask as [|b m IH]; intros [|x xs]; simpl; trivial;
    try discriminate.
  intros H. injection H as H. destruct b; simpl; now rewrite IH.
Qed.

Lemma compress_length_le {A} (mask : list bool) (l : list A) :
  length (compress mask l) <= length l.
Proof.
  revert l. induction mask as [|b m IH]; intros [|x xs]; simpl; try lia.
  specialize (IH xs). destruct b; simpl; lia.
Qed.

(** A mask that is true everywhere selects everything. *)
Lemma compress_all_true {A} (mask : list bool) (l : list A) :
  length l = length mask -> Forall (fun b => b = true) mask ->
  compress mask l = l.
Proof.
  revert l. induction mask as [|b m IH]; intros [|x xs]; simpl; trivial;
    try discriminate.
  intros H Hall. injection H as H. inversion Hall; subst.
  now rewrite IH.
Qed.

(** A mask that is false everywhere selects nothing. *)
Lemma compress_all_false {A} (mask : list bool) (l : list A) :
  Forall (fun b => b = false) mask -> compress mask l = [].
Proof.
  revert l. induction mask as [|b m IH]; intros [|x xs]; simpl; trivial.
  intros Hall. inversion Hall; subst. now apply IH.
Qed.

(** A mask that implies another selects no more than the other. *)
Lemma compress_length_mono {A} (m1 m2 : list bool) (l : list A) :
  Forall2 (fun a b => a = true -> b = true) m1 m2 ->
  length (compress m1 l) <= length (compress m2 l).
Proof.
  intros H. revert l. induction H as [|a b m1 m2 Hab _ IH]; intros l.
  - simpl. lia.
  - destruct l as [|x xs]; simpl; [lia|]. specialize (IH xs).
    destruct a; [rewrite Hab by reflexivity; simpl; lia|].
    destruct b; simpl; lia.
Qed.

Lemma rows_of_length {A} (d : A) (n : nat) (cols : list (list A)) :
  length (rows_of d n cols) = n.
Proof.
  revert cols. induction n as [|n IH]; intros cols; simpl; [|rewrite IH]; trivial.
Qed.

Lemma rows_of_no_columns {A} (d : A) (n : nat) :
  rows_of d n [] = repeat [] n.
Proof.
  induction n as [|n IH]; simpl; [|rewrite IH]; trivial.
Qed.

(** Row [i] of the array holds element [i] of every column. *)
Lemma nth_rows_of {A} (d : A) (n : nat) (cols : list (list A)) (i : nat) :
  i < n -> nth i (rows_of d n cols) [] = map (fun c => nth i c d) cols.
Proof.
  revert cols i. induction n as [|n IH]; intros cols i Hi; [lia|].
  destruct i as [|i]; simpl.
  - apply map_ext. intros [|x xs]; reflexivity.
  - rewrite IH by lia. rewrite map_map. apply map_ext.
    intros [|x xs]; simpl; trivial. now destruct i.
Qed.

Lemma rows_of_eq_map {A} (d : A) (n : nat) (cols : list (list A)) :
  rows_of d n cols = map (fun i => map (fun c => nth i c d) cols) (seq 0 n).
Proof.
  apply nth_ext with (d := []) (d' := map (fun c => nth n c d) cols).
  - now rewrite rows_of_length, length_map, length_seq.
  - intros i Hi. rewrite rows_of_length in Hi.
    rewrite nth_rows_of by assumption.
    rewrite nth_indep with (d' := map (fun c => nth 0 c d) cols)
      by (now rewrite length_map, length_seq).
    rewrite (map_nth (fun i => map (fun c => nth i c d) cols)).
    now rewrite seq_nth.
Qed.

(** Element-wise maps commute with taking rows. *)
Lemma rows_of_map {A B} (f : A -> B) (d : A) (n : nat) (cols : list (list A)) :
  rows_of (f d) n (map (map f) cols) = map (map f) (rows_of d n cols).
Proof.
  revert cols. induction n as [|n IH]; intros cols; simpl; trivial.
  f_equal.
  - rewrite !map_map. apply map_ext. intros [|x xs]; reflexivity.
  - rewrite <- IH. f_equal. rewrite !map_map. apply map_ext.
    intros [|x xs]; reflexivity.
Qed.

(** Selecting rows of every column selects rows of the array. *)
Lemma rows_of_compress {A} (d : A) (mask : list bool) (cols : list (list A)) :
  Forall (fun c => length c = length mask) cols ->
  rows_of d (length (filter (fun b => b) mask)) (map (compress mask) cols)
  = compress mask (rows_of d (length mask) cols).
Proof.
  revert cols. induction mask as [|b m IH]; intros cols Hlen; [reflexivity|].
  assert (Htl : Forall (fun c => length c = length m) (map (@tl A) cols)).
  { apply Forall_map. eapply Forall_impl; [|exact Hlen].
    intros [|x xs]; simpl; intros H; [discriminate|now injection H]. }
  assert (Ht : map (@tl A) (map (compress (true :: m)) cols)
               = map (compress m) (map (@tl A) cols)).
  { rewrite !map_map. apply map_ext.
    intros [|x xs]; simpl; trivial; now rewrite compress_nil_r. }
  assert (Hf : map (compress (false :: m)) cols
               = map (compress m) (map (@tl A) cols)).
  { rewrite !map_map. apply map_ext.
    intros [|x xs]; simpl; trivial; now rewrite compress_nil_r. }
  assert (Hhd : map (hd d) (map (compress (true :: m)) cols) = map (hd d) cols).
  { rewrite map_map. apply map_ext_Forall.
    eapply Forall_impl; [|exact Hlen].
    intros [|x xs]; simpl; trivial; discriminate. }
  specialize (IH _ Htl).
  change (length (b :: m)) with (S (length m)).
  change (rows_of d (S (length m)) cols)
    with (map (hd d) cols :: rows_of d (length m) (map (@tl A) cols)).
  destruct b.
  - change (length (filter (fun b => b) (true :: m)))
      with (S (length (filter (fun b => b) m))).
    change (rows_of d (S (length (filter (fun b => b) m)))
              (map (compress (true :: m)) cols))
      with (map (hd d) (map (compress (true :: m)) cols)
            :: rows_of d (length (filter (fun b => b) m))
                 (map (@tl A) (map (compress (true :: m)) cols))).
    rewrite Hhd, Ht, IH. reflexivity.
  - change (length (filter (fun b => b) (false :: m)))
      with (length (filter (fun b => b) m)).
    rewrite Hf, IH. reflexivity.
Qed.

End NpFacts.


(** ** Frames: selection of rows and columns *)
Module PdFacts.
Import Np NpFacts Pd.

Lemma cells_col_compress (mask : list bool) (c : Column) :
  cells (col_compress mask c) = compress mask (cells c).
Proof.
  destruct c; simpl; now rewrite compress_map.
Qed.

Lemma to_float_length (c : Column) : length (to_float c) = col_length c.
Proof.
  unfold col_length. destruct c; simpl; now rewrite ?length_map.
Qed.

Lemma columns_getitem_bool (df : DataFrame) (mask : list bool) :
  columns (getitem_bool df mask) = columns df.
Proof.
  unfold columns, getitem_bool; simpl. rewrite map_map. reflexivity.
Qed.

Lemma len_getitem_bool_le (df : DataFrame) (mask : list bool) :
  len (getitem_bool df mask) <= len df.
Proof.
  unfold len, getitem_bool; simpl. apply compress_length_le.
Qed.

(** The rows of [df[mask]] are the rows of [df] that the mask selects, in
    their order. *)
Lemma rows_getitem_bool (df : DataFrame) (mask : list bool) :
  Forall (fun nc => col_length (snd nc) = len df) (data df) ->
  length mask = len df ->
  rows (getitem_bool df mask) = compress mask (rows df).
Proof.
  intros Hal Hm. unfold rows, getitem_bool, len; simpl.
  rewrite compress_length by (symmetry; exact Hm).
  rewrite map_map; simpl.
  rewrite (map_ext _ (fun nc => compress mask (cells (snd nc))))
    by (intros; apply cells_col_compress).
  rewrite <- (map_map (fun nc => cells (snd nc)) (compress mask)).
  fold (len df). rewrite <- Hm. apply rows_of_compress.
  apply Forall_map. eapply Forall_impl; [|exact Hal].
  intros nc H. unfold col_length in H. now rewrite H, Hm.
Qed.

(** A mask that is true everywhere gives the frame back. *)
Lemma getitem_bool_all_true (df : DataFrame) (mask : list bool) :
  Forall (fun nc => col_length (snd nc) = len df) (data df) ->
  length mask = len df -> Forall (fun b => b = true) mask ->
  getitem_bool df mask = df.
Proof.
  intros Hal Hm Ht. destruct df as [idx d]. unfold getitem_bool, len in *; simpl in *.
  f_equal.
  - now apply compress_all_true.
  - rewrite <- (map_id d) at 2. apply map_ext_Forall.
    eapply Forall_impl; [|exact Hal]. intros [n c] H; simpl in *. f_equal.
    unfold col_length in H.
    destruct c; simpl in *; rewrite length_map in H; f_equal;
      apply compress_all_true; trivial; congruence.
Qed.

(** With unique labels, a label selects the one column that carries it. *)
Lemma filter_label_unique (d : list (string * Column)) (nc : string * Column) :
  NoDup (map fst d) -> In nc d ->
  filter (fun x => String.eqb (fst nc) (fst x)) d = [nc].
Proof.
  induction d as [|x d IH]; simpl; intros Hnd Hin; [contradiction|].
  inversion Hnd as [|? ? Hx Hd]; subst.
  destruct Hin as [->|Hin].
  - rewrite String.eqb_refl. f_equal.
    destruct (filter (fun x => (fst nc =? fst x)%string) d) as [|y l] eqn:E; trivial.
    assert (Hy : In y (filter (fun x => (fst nc =? fst x)%string) d))
      by (rewrite E; now left).
    apply filter_In in Hy. destruct Hy as [Hy Heq].
    apply String.eqb_eq in Heq. exfalso. apply Hx. rewrite Heq.
    now apply in_map.
  - destruct (String.eqb_spec (fst nc) (fst x)) as [Heq|_].
    + exfalso. apply Hx. rewrite <- Heq. now apply in_map.
    + now apply IH.
Qed.

(** Selecting by the labels of the columns of one dtype gives these
    columns. *)
Lemma getitem_list_select_dtypes (include : Column -> bool) (df : DataFrame) :
  NoDup (columns df) ->
  getitem_list df (columns (select_dtypes include df)) = select_dtypes include df.
Proof.
  intros Hnd. unfold getitem_list, select_dtypes, columns; simpl. f_equal.
  assert (Hsub : forall nc, In nc (filter (fun nc => include (snd nc)) (data df)) ->
                            In nc (data df))
    by (intros nc H; now apply filter_In in H).
  induction (filter (fun nc => include (snd nc)) (data df)) as [|nc l IH]; simpl; trivial.
  rewrite filter_label_unique; trivial; [|apply Hsub; now left].
  simpl. f_equal. apply IH. intros x Hx. apply Hsub. now right.
Qed.

End PdFacts.


(** ** remove_outliers *)
Module OutlierFacts.
Import Np NpFacts Pd PdFacts Prepare.

Lemma np_mean_spec (a : list float) : Np.mean a = Spec.population_mean a.
Proof. reflexivity. Qed.

Lemma np_std_spec (a : list float) : Np.std a = Spec.population_std a.
Proof.
  unfold Np.std, Spec.population_std. rewrite map_map, np_mean_spec. reflexivity.
Qed.

Lemma nth_map_in_range {A B} (f : A -> B) (l : list A) (i : nat) (d : A) (d' : B) :
  i < length l -> nth i (map f l) d' = f (nth i l d).
Proof.
  intros Hi. rewrite nth_indep with (d' := f d) by (now rewrite length_map).
  apply map_nth.
Qed.

(** The scores scipy returns for a column are the z-scores of its rows. *)
Lemma zscore_column_spec (a : list float) :
  Stats.zscore_column a = map (Spec.z_score a) (seq 0 (length a)).
Proof.
  apply nth_ext with (d := nan) (d' := Spec.z_score a 0).
  - unfold Stats.zscore_column.
    destruct (Stats.isconst a); now rewrite !length_map, ?length_seq.
  - intros i Hi.
    assert (Hia : i < length a).
    { unfold Stats.zscore_column in Hi.
      destruct (Stats.isconst a); now rewrite !length_map in Hi. }
    rewrite (map_nth (Spec.z_score a)), seq_nth by assumption. simpl.
    unfold Stats.zscore_column, Spec.z_score.
    rewrite np_mean_spec, np_std_spec.
    destruct (Stats.isconst a).
    + rewrite nth_map_in_range with (d := nan) by (now rewrite length_map).
      reflexivity.
    + now rewrite nth_map_in_range with (d := nan).
Qed.

(** The mask computed by [remove_outliers] marks the rows that are within
    the threshold. *)
Lemma outlier_mask_spec (df : DataFrame) (t : float) :
  wf df ->
  outlier_mask df t = map (Spec.within_threshold df t) (seq 0 (len df)).
Proof.
  intros (Hnd & _ & Hal). unfold outlier_mask.
  rewrite getitem_list_select_dtypes by assumption.
  change (values (select_dtypes is_number df)) with (Spec.numeric_columns df).
  unfold Spec.within_threshold.
  assert (Hlen : Forall (fun a => length a = len df) (Spec.numeric_columns df)).
  { unfold Spec.numeric_columns. apply Forall_map, Forall_forall.
    intros nc Hin. apply filter_In in Hin. destruct Hin as [Hin _].
    rewrite to_float_length. now apply (proj1 (Forall_forall _ _) Hal). }
  set (cols := Spec.numeric_columns df) in *. clearbody cols.
  set (n := len df) in *. clearbody n.
  unfold all_axis1. rewrite rows_of_eq_map, map_map.
  apply map_ext_in. intros i Hi. apply in_seq in Hi.
  assert (Hz : Stats.zscore n cols = map Stats.zscore_column cols).
  { unfold Stats.zscore, size. destruct cols as [|c cols].
    - simpl. now destruct (_ =? _)%nat.
    - destruct (Nat.eqb_spec (n * length (c :: cols)) 0) as [H0|]; trivial.
      simpl in H0. lia. }
  rewrite Hz, !map_map. clear Hz.
  induction Hlen as [|a cols Ha _ IH]; simpl; trivial.
  rewrite IH. f_equal.
  rewrite nth_map_in_range with (d := nan)
    by (rewrite zscore_column_spec, length_map, length_seq; lia).
  rewrite zscore_column_spec.
  rewrite nth_map_in_range with (d := 0%nat) by (rewrite length_seq; lia).
  rewrite seq_nth by lia. reflexivity.
Qed.

Lemma outlier_mask_length (df : DataFrame) (t : float) :
  length (outlier_mask df t) = len df.
Proof.
  unfold outlier_mask, all_axis1. now rewrite length_map, rows_of_length.
Qed.

(** [remove_outliers] returns, and what it returns is the masked frame. *)
Lemma remove_outliers_returns (df : DataFrame) (t : float) :
  snd (remove_outliers df t) = Returned (getitem_bool df (outlier_mask df t)).
Proof. reflexivity. Qed.

End OutlierFacts.


(** ** Claims about remove_outliers *)
Import Pd Prepare Samples.

Unset Implicit Arguments.

Lemma Forall2_map_same {A B} (P : B -> B -> Prop) (g1 g2 : A -> B) (l : list A) :
  (forall x, In x l -> P (g1 x) (g2 x)) -> Forall2 P (map g1 l) (map g2 l).
Proof.
  induction l as [|x l IH]; simpl; intros H; constructor.
  - apply H. now left.
  - apply IH. intros y Hy. apply H. now right.
Qed.

(** Raising the threshold turns no entry of the mask from true to false. *)
Lemma outlier_mask_mono (df : DataFrame) (t1 t2 : float) :
  (t1 <=? t2)%float = true ->
  Forall2 (fun a b => a = true -> b = true) (outlier_mask df t1) (outlier_mask df t2).
Proof.
  intros Hle. unfold outlier_mask, Np.all_axis1.
  set (z := Stats.zscore _ _). clearbody z.
  rewrite !NpFacts.rows_of_eq_map, !map_map.
  apply Forall2_map_same. intros i _.
  induction z as [|c z IH]; simpl; trivial.
  intros H. apply andb_prop in H. destruct H as [Hc Hz].
  rewrite (IH Hz), andb_true_r.
  destruct (Nat.lt_ge_cases i (length c)) as [Hi|Hi].
  - rewrite OutlierFacts.nth_map_in_range with (d := nan) in * by assumption.
    eapply F64Facts.ltb_leb_trans; eassumption.
  - apply nth_overflow. now rewrite length_map.
Qed.




(** The column [10, 12, 11, 13, 1000] at threshold 3.0: the z-score of 1000
    is just below 2, and all five rows are kept. *)
Example remove_outliers_df_1000 :
  snd (remove_outliers df_1000 3) = Returned df_1000 /\
  map (Spec.within_threshold df_1000 3) (seq 0 5) = [true; true; true; true; true] /\
  (abs (Spec.z_score [10; 12; 11; 13; 1000]%float 4) <? 2)%float = true.
Proof. repeat split; vm_compute; reflexivity. Qed.

(** C7. For every table and every pair of thresholds [t1 <= t2],
    [remove_outliers] returns for both, and the table returned for [t2] has
    at least as many rows as the one returned for [t1]. *)
Theorem remove_outliers_threshold_monotone (df : DataFrame) (t1 t2 : float) :
  (t1 <=? t2)%float = true ->
  exists df1 df2,
    snd (remove_outliers df t1) = Returned df1 /\
    snd (remove_outliers df t2) = Returned df2 /\
    len df1 <= len df2.
Proof.
  intros Hle.
  exists (getitem_bool df (outlier_mask df t1)), (getitem_bool df (outlier_mask df t2)).
  repeat split.
  unfold len, getitem_bool; simpl.
  apply NpFacts.compress_length_mono. now apply outlier_mask_mono.
Qed.

Lemma remove_outliers_threshold_monotone_witness :
  (1.5 <=? 3)%float = true /\
  exists df1 df2,
    snd (remove_outliers df_1000 1.5) = Returned df1 /\
    snd (remove_outliers df_1000 3) = Returned df2 /\
    len df1 <= len df2.
Proof.
  split; [reflexivity|].
  apply (remove_outliers_threshold_monotone df_1000 1.5 3). reflexivity.
Defined.

(** At threshold 1.5 the row holding 1000 goes, at 3.0 it stays. *)
Example remove_outliers_df_1000_thresholds :
  option_map len (match snd (remove_outliers df_1000 1.5) with
                  | Returned d => Some d | Raised _ => None end) = Some 4 /\
  option_map len (match snd (remove_outliers df_1000 3) with
                  | Returned d => Some d | Raised _ => None end) = Some 5.
Proof. split; vm_compute; reflexivity. Qed.

(** C10. For every well-formed table without numeric columns and every
    threshold, [remove_outliers] returns the table itself: all rows are
    retained and nothing is changed. *)
Theorem remove_outliers_no_numeric_columns (df : DataFrame) (t : float) :
  wf df ->
  columns (select_dtypes is_number df) = [] ->
  snd (remove_outliers df t) = Returned df.
Proof.
  intros Hwf Hnum. rewrite OutlierFacts.remove_outliers_returns. f_equal.
  rewrite (OutlierFacts.outlier_mask_spec t Hwf).
  destruct Hwf as (_ & _ & Hal).
  apply PdFacts.getitem_bool_all_true; trivial.
  - now rewrite length_map, length_seq.
  - apply Forall_map, Forall_forall. intros i _.
    unfold Spec.within_threshold, Spec.numeric_columns.
    unfold columns, select_dtypes in Hnum; simpl in Hnum.
    apply map_eq_nil in Hnum. now rewrite Hnum.
Qed.

Lemma wf_df_text : wf df_text.
Proof.
  repeat split.
  - repeat constructor; simpl; intuition discriminate.
  - discriminate.
  - repeat constructor.
Qed.

Lemma remove_outliers_no_numeric_columns_witness :
  wf df_text /\ columns (select_dtypes is_number df_text) = [] /\
  snd (remove_outliers df_text 3) = Returned df_text.
Proof.
  split; [exact wf_df_text|]. split; [reflexivity|].
  apply (remove_outliers_no_numeric_columns df_text 3 wf_df_text). reflexivity.
Defined.

(** A constant numeric column makes every row fail the test. *)
Lemma remove_outliers_constant_column (df : DataFrame) (t : float) (nc : string * Column) :
  wf df -> In nc (data df) -> is_number (snd nc) = true ->
  Stats.isconst (to_float (snd nc)) = true ->
  exists df', snd (remove_outliers df t) = Returned df' /\ len df' = 0.
Proof.
  intros Hwf Hin Hnum Hconst. eexists. split; [reflexivity|].
  rewrite (OutlierFacts.outlier_mask_spec t Hwf).
  unfold len, getitem_bool; simpl.
  rewrite NpFacts.compress_all_false; trivial.
  apply Forall_map, Forall_forall. intros i _.
  unfold Spec.within_threshold, Spec.numeric_columns.
  apply not_true_is_false. intros H.
  rewrite forallb_forall in H.
  specialize (H (to_float (snd nc))).
  unfold Spec.z_score in H. rewrite Hconst, F64Facts.ltb_nan_l in H.
  discriminate H.
  apply in_map with (f := fun nc => to_float (snd nc)).
  apply filter_In. now split.
Qed.

(** C1 (the code departs from it). On the constant column [5, 5, 5, 5] at
    the threshold 3.0, [remove_outliers] returns the table with no rows: the
    scores of a constant column are NaN and no NaN is below a threshold.
    Next to a varying column [1, 2, 3, 4], whose rows all pass on their own,
    the constant column again removes every row. *)
Theorem remove_outliers_constant_column_drops_all_rows :
  snd (remove_outliers df_const 3)
  = Returned {| index := []; data := [("k"%string, ColFloat64 [])] |} /\
  snd (remove_outliers df_const2 3)
  = Returned {| index := [];
                data := [("k"%string, ColFloat64 []); ("v"%string, ColFloat64 [])] |} /\
  snd (remove_outliers {| index := index df_const2;
                          data := [("v"%string, ColFloat64 [1; 2; 3; 4]%float)] |} 3)
  = Returned {| index := index df_const2;
                data := [("v"%string, ColFloat64 [1; 2; 3; 4]%float)] |}.
Proof. repeat split; vm_compute; reflexivity. Qed.


(** ** remove_duplicates *)
Module DuplicateFacts.
Import Np NpFacts Pd PdFacts.

Lemma cell_eqb_refl (a : Cell) : cell_eqb a a = true.
Proof.
  destruct a; simpl.
  - apply Z.eqb_refl.
  - apply F64Facts.key_eqb_refl.
  - now destruct b.
  - apply String.eqb_refl.
Qed.

Lemma cell_eqb_trans (a b c : Cell) :
  cell_eqb a b = true -> cell_eqb b c = true -> cell_eqb a c = true.
Proof.
  destruct a, b, c; simpl; try discriminate.
  - rewrite !Z.eqb_eq. congruence.
  - apply F64Facts.key_eqb_trans.
  - rewrite !Bool.eqb_true_iff. congruence.
  - rewrite !String.eqb_eq. congruence.
Qed.

Lemma row_eqb_refl (r : list Cell) : row_eqb r r = true.
Proof.
  induction r as [|a r IH]; simpl; trivial. now rewrite cell_eqb_refl.
Qed.

Lemma row_eqb_trans (r1 r2 r3 : list Cell) :
  row_eqb r1 r2 = true -> row_eqb r2 r3 = true -> row_eqb r1 r3 = true.
Proof.
  revert r2 r3. induction r1 as [|a r1 IH]; intros [|b r2] [|c r3]; simpl;
    trivial; try discriminate.
  intros H1 H2. apply andb_prop in H1, H2.
  destruct H1 as [Hab H1], H2 as [Hbc H2].
  now rewrite (cell_eqb_trans _ _ _ Hab Hbc), (IH _ _ H1 H2).
Qed.

Lemma duplicated_from_length (seen keys : list (list Cell)) :
  length (duplicated_from seen keys) = length keys.
Proof.
  revert seen. induction keys as [|k ks IH]; intros seen; simpl; trivial.
  destruct (existsb (row_eqb k) seen); simpl; now rewrite IH.
Qed.

(** The table of keys seen so far answers as the list of all earlier rows
    does: the pass marks a row exactly when an earlier row equals it. *)
Lemma duplicated_from_spec (seen earlier keys : list (list Cell)) :
  (forall r, existsb (row_eqb r) seen = existsb (row_eqb r) earlier) ->
  compress (map negb (duplicated_from seen keys)) keys
  = Spec.first_occurrences_from earlier keys.
Proof.
  revert seen earlier. induction keys as [|k ks IH]; intros seen earlier Hinv; simpl; trivial.
  rewrite <- Hinv. destruct (existsb (row_eqb k) seen) eqn:Hk; simpl.
  - apply IH. intros r. rewrite existsb_app; simpl. rewrite orb_false_r, <- Hinv.
    destruct (row_eqb r k) eqn:Hrk; [|now rewrite orb_false_r].
    rewrite orb_true_r. apply existsb_exists in Hk. destruct Hk as (s & Hs & Hks).
    apply existsb_exists. exists s. split; trivial.
    eapply row_eqb_trans; eassumption.
  - f_equal. apply IH. intros r. rewrite existsb_app; simpl.
    rewrite orb_false_r, <- Hinv. apply orb_comm.
Qed.

(** No row of the result equals an earlier row of the table. *)
Lemma first_occurrences_from_fresh (earlier rs : list (list Cell)) (r : list Cell) :
  In r (Spec.first_occurrences_from earlier rs) ->
  existsb (row_eqb r) earlier = false.
Proof.
  revert earlier. induction rs as [|r0 rs IH]; intros earlier; simpl; [contradiction|].
  assert (Htail : In r (Spec.first_occurrences_from (earlier ++ [r0]) rs) ->
                  existsb (row_eqb r) earlier = false).
  { intros H. apply IH in H. rewrite existsb_app in H.
    now apply orb_false_elim in H. }
  destruct (existsb (row_eqb r0) earlier) eqn:E; simpl; trivial.
  intros [<-|H]; auto.
Qed.

(** The rows of the result are pairwise different: a later one never equals
    an earlier one. *)
Lemma first_occurrences_from_distinct (earlier rs : list (list Cell)) :
  ForallOrdPairs (fun a b => row_eqb b a = false)
                 (Spec.first_occurrences_from earlier rs).
Proof.
  revert earlier. induction rs as [|r0 rs IH]; intros earlier; simpl; [constructor|].
  destruct (existsb (row_eqb r0) earlier); [apply IH|].
  constructor; [|apply IH].
  apply Forall_forall. intros r Hr.
  apply first_occurrences_from_fresh in Hr. rewrite existsb_app in Hr.
  apply orb_false_elim in Hr. destruct Hr as [_ Hr]. simpl in Hr.
  now rewrite orb_false_r in Hr.
Qed.

(** Every row of the table equals a row of the result or an earlier row. *)
Lemma first_occurrences_from_covers (earlier rs : list (list Cell)) (r : list Cell) :
  In r rs ->
  existsb (row_eqb r) (earlier ++ Spec.first_occurrences_from earlier rs) = true.
Proof.
  revert earlier. induction rs as [|r0 rs IH]; intros earlier; simpl; [contradiction|].
  intros Hin.
  assert (Htail : In r rs ->
            existsb (row_eqb r)
              (earlier ++ r0 :: Spec.first_occurrences_from (earlier ++ [r0]) rs) = true).
  { intros H. specialize (IH (earlier ++ [r0]) H).
    now rewrite <- app_assoc in IH. }
  destruct (existsb (row_eqb r0) earlier) eqn:E.
  - rewrite existsb_app. destruct Hin as [<-|Hin]; [now rewrite E|].
    specialize (Htail Hin). rewrite existsb_app in Htail; simpl in Htail.
    destruct (existsb (row_eqb r) earlier) eqn:Er; trivial. simpl in *.
    destruct (row_eqb r r0) eqn:Err0; trivial. exfalso.
    apply existsb_exists in E. destruct E as (s & Hs & Hr0s).
    assert (Hcontra : existsb (row_eqb r) earlier = true).
    { apply existsb_exists. exists s. split; trivial.
      eapply row_eqb_trans; eassumption. }
    congruence.
  - destruct Hin as [<-|Hin]; [|now apply Htail].
    rewrite existsb_app; simpl. now rewrite row_eqb_refl, orb_true_r.
Qed.

(** Among pairwise different keys, none of them seen before, the pass marks
    nothing. *)
Lemma duplicated_from_distinct (seen keys : list (list Cell)) :
  (forall k, In k keys -> existsb (row_eqb k) seen = false) ->
  ForallOrdPairs (fun a b => row_eqb b a = false) keys ->
  Forall (fun b => b = false) (duplicated_from seen keys).
Proof.
  intros Hseen Hd. revert seen Hseen.
  induction Hd as [|k ks Hk _ IH]; intros seen Hseen; simpl; [constructor|].
  rewrite (Hseen k (or_introl eq_refl)). constructor; trivial.
  apply IH. intros k' Hk'. simpl.
  rewrite (proj1 (Forall_forall _ _) Hk k' Hk'). simpl.
  apply Hseen. now right.
Qed.

Lemma rows_length (df : DataFrame) : length (rows df) = len df.
Proof. unfold rows. apply rows_of_length. Qed.

(** On a well-formed frame [drop_duplicates] keeps the first occurrences. *)
Lemma rows_drop_duplicates (df : DataFrame) :
  wf df -> rows (drop_duplicates df) = Spec.first_occurrences (rows df).
Proof.
  intros (_ & Hne & Hal). unfold drop_duplicates, duplicated.
  destruct (empty df) eqn:He.
  - unfold empty in He. destruct (data df) as [|nc d] eqn:Hd; [contradiction|].
    simpl in He. rewrite orb_false_r in He. apply Nat.eqb_eq in He.
    unfold rows. now rewrite He.
  - rewrite rows_getitem_bool; trivial.
    + now apply duplicated_from_spec.
    + now rewrite length_map, duplicated_from_length, rows_length.
Qed.

End DuplicateFacts.

(** C5. For every well-formed table, [remove_duplicates] returns the table
    whose rows are the first occurrences of the rows of the input: a row is
    kept exactly when no earlier row has the same value in every column, the
    kept rows and their index labels stay in their order, and the columns
    are unchanged.  The count it reports is the number of rows of the input
    minus the number of rows of the result, and a table without rows gives a
    table without rows. *)
Theorem remove_duplicates_keeps_first_occurrences (df : DataFrame) :
  wf df ->
  exists df' mask,
    remove_duplicates df
    = ([RemovedDuplicates (Z.of_nat (len df) - Z.of_nat (len df'))], Returned df') /\
    rows df' = Spec.first_occurrences (rows df) /\
    rows df' = Np.compress mask (rows df) /\
    index df' = Np.compress mask (index df) /\
    columns df' = columns df /\
    (len df = 0 -> len df' = 0).
Proof.
  intros Hwf. pose proof (DuplicateFacts.rows_drop_duplicates df Hwf) as Hrows.
  exists (drop_duplicates df).
  exists (if empty df then repeat true (len df) else map negb (duplicated df)).
  split; [reflexivity|]. split; [exact Hrows|].
  destruct Hwf as (_ & Hne & Hal).
  unfold drop_duplicates in *. destruct (empty df) eqn:He.
  - assert (Hall : Forall (fun b => b = true) (repeat true (len df)))
      by (apply Forall_forall; intros b Hb; now apply repeat_spec in Hb).
    repeat split; trivial.
    + rewrite NpFacts.compress_all_true; trivial.
      now rewrite DuplicateFacts.rows_length, repeat_length.
    + rewrite NpFacts.compress_all_true; trivial. now rewrite repeat_length.
  - assert (Hlen : length (map negb (duplicated df)) = len df).
    { unfold duplicated. rewrite He, length_map.
      now rewrite DuplicateFacts.duplicated_from_length, DuplicateFacts.rows_length. }
    repeat split.
    + now apply PdFacts.rows_getitem_bool.
    + apply PdFacts.columns_getitem_bool.
    + intros H0. pose proof (PdFacts.len_getitem_bool_le df (map negb (duplicated df))).
      lia.
Qed.

Lemma wf_df_dup : wf df_dup.
Proof.
  repeat split.
  - repeat constructor; simpl; intuition discriminate.
  - discriminate.
  - repeat constructor.
Qed.

Lemma remove_duplicates_keeps_first_occurrences_witness :
  wf df_dup /\
  exists df' mask,
    remove_duplicates df_dup
    = ([RemovedDuplicates (Z.of_nat (len df_dup) - Z.of_nat (len df'))], Returned df') /\
    rows df' = Spec.first_occurrences (rows df_dup) /\
    rows df' = Np.compress mask (rows df_dup) /\
    index df' = Np.compress mask (index df_dup) /\
    columns df' = columns df_dup /\
    (len df_dup = 0 -> len df' = 0).
Proof.
  split; [exact wf_df_dup|].
  apply (remove_duplicates_keeps_first_occurrences df_dup wf_df_dup).
Defined.

(** Rows [{a:1,b:"x"}], [{a:1,b:"x"}], [{a:2,b:"y"}]: the second goes. *)
Example remove_duplicates_df_dup :
  remove_duplicates df_dup
  = ([RemovedDuplicates 1],
     Returned {| index := [0; 2]%Z;
                 data := [("a", ColInt64 [1; 2]%Z);
                          ("b", ColObject [Some "x"; Some "y"])]%string |}).
Proof. vm_compute. reflexivity. Qed.


(** ** Series.mode *)
Module ModeFacts.
Import Pd.

(** Code-point order on strings is transitive. *)
Lemma leb_trans (a b c : string) :
  String.leb a b = true -> String.leb b c = true -> String.leb a c = true.
Proof.
  unfold String.leb. revert b c.
  induction a as [|x a IH]; intros [|y b] [|z c]; simpl; trivial; try discriminate.
  unfold Ascii.compare.
  destruct (N.compare_spec (N_of_ascii x) (N_of_ascii y)) as [Hxy|Hxy|Hxy];
    destruct (N.compare_spec (N_of_ascii y) (N_of_ascii z)) as [Hyz|Hyz|Hyz];
    destruct (N.compare_spec (N_of_ascii x) (N_of_ascii z)) as [Hxz|Hxz|Hxz];
    trivial; try discriminate; try lia.
  apply IH.
Qed.

Lemma leb_refl (a : string) : String.leb a a = true.
Proof.
  destruct (String.leb_total a a); assumption.
Qed.

(** *** np.sort *)

Lemma insert_sorted_In (s x : string) (l : list string) :
  In x (Np.insert_sorted s l) <-> x = s \/ In x l.
Proof.
  induction l as [|y l IH]; simpl; [intuition|].
  destruct (String.leb s y); simpl; [intuition|].
  rewrite IH. intuition.
Qed.

Lemma sort_In (x : string) (l : list string) : In x (Np.sort l) <-> In x l.
Proof.
  induction l as [|y l IH]; simpl; [tauto|].
  rewrite insert_sorted_In, IH. intuition.
Qed.

Lemma insert_sorted_sorted (s : string) (l : list string) :
  StronglySorted (fun a b => String.leb a b = true) l ->
  StronglySorted (fun a b => String.leb a b = true) (Np.insert_sorted s l).
Proof.
  induction 1 as [|y l Hl IH Hy]; simpl.
  - repeat constructor.
  - destruct (String.leb s y) eqn:E.
    + constructor; [now constructor|]. constructor; trivial.
      eapply Forall_impl; [|exact Hy]. intros z Hz.
      eapply leb_trans; eassumption.
    + constructor; trivial. apply Forall_forall. intros z Hz.
      apply insert_sorted_In in Hz. destruct Hz as [->|Hz].
      * destruct (String.leb_total s y) as [H|H]; [congruence|exact H].
      * now apply (proj1 (Forall_forall _ _) Hy).
Qed.

Lemma sort_sorted (l : list string) :
  StronglySorted (fun a b => String.leb a b = true) (Np.sort l).
Proof.
  induction l as [|y l IH]; simpl; [constructor|].
  now apply insert_sorted_sorted.
Qed.

(** The first element of the sorted array is the least one. *)
Lemma sort_head_least (l : list string) (m : string) (rest : list string) :
  Np.sort l = m :: rest -> forall x, In x l -> String.leb m x = true.
Proof.
  intros Hs x Hx. apply sort_In in Hx. pose proof (sort_sorted l) as Hsorted.
  rewrite Hs in Hx, Hsorted. inversion Hsorted as [|? ? _ Hall]; subst.
  destruct Hx as [<-|Hx]; [apply leb_refl|].
  now apply (proj1 (Forall_forall _ _) Hall).
Qed.

(** *** The table of counts *)

Lemma table_count_count_up (k k' : string) (t : list (string * nat)) :
  table_count k (count_up k' t)
  = if String.eqb k k' then S (table_count k t) else table_count k t.
Proof.
  induction t as [|[k0 n0] t IH]; simpl.
  - destruct (String.eqb k k'); reflexivity.
  - destruct (String.eqb_spec k' k0) as [->|Hne]; simpl.
    + destruct (String.eqb k k0); reflexivity.
    + rewrite IH. destruct (String.eqb_spec k k0) as [->|]; trivial.
      destruct (String.eqb_spec k0 k'); congruence.
Qed.

Lemma table_count_fold (k : string) (l : list string) (t : list (string * nat)) :
  table_count k (fold_left (fun t k => count_up k t) l t)
  = count_occ string_dec l k + table_count k t.
Proof.
  revert t. induction l as [|x l IH]; intros t; simpl; trivial.
  rewrite IH, table_count_count_up.
  destruct (string_dec x k) as [->|Hne].
  - rewrite String.eqb_refl. lia.
  - destruct (String.eqb_spec k x); [congruence|reflexivity].
Qed.

Lemma table_count_value_counts (k : string) (l : list string) :
  table_count k (value_counts l) = Spec.occurrences k l.
Proof.
  unfold value_counts, Spec.occurrences. rewrite table_count_fold. simpl. lia.
Qed.

Lemma count_up_keys (k x : string) (t : list (string * nat)) :
  In x (map fst (count_up k t)) -> x = k \/ In x (map fst t).
Proof.
  induction t as [|[k0 n0] t IH]; simpl; [intuition|].
  destruct (String.eqb k k0); simpl; intuition.
Qed.

Lemma count_up_NoDup (k : string) (t : list (string * nat)) :
  NoDup (map fst t) -> NoDup (map fst (count_up k t)).
Proof.
  induction t as [|[k0 n0] t IH]; simpl; intros Hnd.
  - repeat constructor. intros [].
  - inversion Hnd as [|? ? Hk0 Ht]; subst.
    destruct (String.eqb_spec k k0) as [->|Hne]; simpl.
    + now constructor.
    + constructor; [|now apply IH].
      intros Hin. apply count_up_keys in Hin. destruct Hin; congruence.
Qed.

Lemma value_counts_NoDup (l : list string) : NoDup (map fst (value_counts l)).
Proof.
  unfold value_counts.
  assert (H : forall t, NoDup (map fst t) ->
                        NoDup (map fst (fold_left (fun t k => count_up k t) l t))).
  { induction l as [|x l IH]; intros t Ht; simpl; trivial.
    now apply IH, count_up_NoDup. }
  apply H. constructor.
Qed.

Lemma table_count_In (k : string) (n : nat) (t : list (string * nat)) :
  NoDup (map fst t) -> In (k, n) t -> table_count k t = n.
Proof.
  induction t as [|[k0 n0] t IH]; simpl; intros Hnd Hin; [contradiction|].
  inversion Hnd as [|? ? Hk0 Ht]; subst.
  destruct Hin as [Heq|Hin].
  - injection Heq as -> ->. now rewrite String.eqb_refl.
  - destruct (String.eqb_spec k k0) as [->|_]; [|now apply IH].
    exfalso. apply Hk0. change k0 with (fst (k0, n)). now apply in_map.
Qed.

Lemma In_table_count (k : string) (t : list (string * nat)) :
  0 < table_count k t -> In (k, table_count k t) t.
Proof.
  induction t as [|[k0 n0] t IH]; simpl; [lia|].
  destruct (String.eqb_spec k k0) as [->|_]; [now left|].
  intros H. right. now apply IH.
Qed.

Lemma max_count_bound (ns : list nat) (n : nat) :
  In n ns -> n <= fold_right Nat.max 0 ns.
Proof.
  induction ns as [|x ns IH]; simpl; [contradiction|].
  intros [->|H]; [lia|]. specialize (IH H). lia.
Qed.

Lemma max_count_attained (ns : list nat) :
  ns <> [] -> In (fold_right Nat.max 0 ns) ns.
Proof.
  induction ns as [|x ns IH]; simpl; [congruence|]. intros _.
  destruct ns as [|y ns'].
  - left. simpl. lia.
  - specialize (IH ltac:(discriminate)).
    destruct (Nat.max_spec x (fold_right Nat.max 0 (y :: ns'))) as [[_ ->]|[_ ->]];
      [now right|now left].
Qed.

(** A column with a non-missing value has a mode.  The first of its modes
    is a value of the column, no value occurs more often, and it is the
    least in code-point order among the values that occur as often. *)
Lemma mode_spec (v : list (option string)) :
  dropna_obj v <> [] ->
  exists m rest,
    mode v = m :: rest /\
    In m (dropna_obj v) /\
    (forall w, In w (dropna_obj v) ->
               Spec.occurrences w (dropna_obj v) <= Spec.occurrences m (dropna_obj v)) /\
    (forall w, In w (dropna_obj v) ->
               Spec.occurrences w (dropna_obj v) = Spec.occurrences m (dropna_obj v) ->
               String.leb m w = true).
Proof.
  intros Hne. unfold mode.
  set (l := dropna_obj v) in *. set (t := value_counts l).
  set (M := fold_right Nat.max 0 (map snd t)).
  set (modes := map fst (filter (fun kn => (snd kn =? M)%nat) t)).
  assert (Hin_t : forall w, In w l -> In (w, Spec.occurrences w l) t).
  { intros w Hw. unfold t. rewrite <- table_count_value_counts.
    apply In_table_count. rewrite table_count_value_counts. unfold Spec.occurrences.
    now apply count_occ_In. }
  assert (Ht_occ : forall k n, In (k, n) t -> n = Spec.occurrences k l).
  { intros k n Hkn. unfold t in Hkn. rewrite <- table_count_value_counts.
    symmetry. apply table_count_In; trivial. apply value_counts_NoDup. }
  assert (Hbound : forall w, In w l -> Spec.occurrences w l <= M).
  { intros w Hw. apply max_count_bound.
    change (Spec.occurrences w l) with (snd (w, Spec.occurrences w l)).
    apply in_map. now apply Hin_t. }
  assert (Hmodes : forall w, In w modes <-> In w l /\ Spec.occurrences w l = M).
  { intros w. unfold modes. rewrite in_map_iff. split.
    - intros ([k n] & <- & Hf). apply filter_In in Hf. simpl in *.
      destruct Hf as [Hkn HM]. apply Nat.eqb_eq in HM.
      pose proof (Ht_occ _ _ Hkn) as Hn. split; [|congruence].
      assert (Hpos : 0 < M).
      { destruct l as [|x l'] eqn:El; [congruence|].
        pose proof (Hbound x (or_introl eq_refl)) as Hb.
        unfold Spec.occurrences in Hb. simpl in Hb.
        destruct (string_dec x x); [lia|congruence]. }
      unfold Spec.occurrences in Hn. apply (count_occ_In string_dec). lia.
    - intros [Hw HM]. exists (w, Spec.occurrences w l). split; trivial.
      apply filter_In. split; [now apply Hin_t|]. simpl. now apply Nat.eqb_eq. }
  assert (Hex : exists k, In k modes).
  { assert (Htne : map snd t <> []).
    { destruct l as [|x l'] eqn:El; [congruence|].
      pose proof (Hin_t x (or_introl eq_refl)) as H.
      intros Hnil. apply (in_map snd) in H. rewrite Hnil in H. exact H. }
    apply max_count_attained in Htne. fold M in Htne.
    apply in_map_iff in Htne. destruct Htne as ([k n] & Hn & Hkn). simpl in Hn. subst n.
    exists k. apply Hmodes. pose proof (Ht_occ _ _ Hkn) as HM. split; [|congruence].
    assert (Hpos : 0 < M).
    { destruct l as [|x l'] eqn:El; [congruence|].
      pose proof (Hbound x (or_introl eq_refl)) as Hb.
      unfold Spec.occurrences in Hb. simpl in Hb.
      destruct (string_dec x x); [lia|congruence]. }
    unfold Spec.occurrences in HM. apply (count_occ_In string_dec). lia. }
  destruct (Np.sort modes) as [|m rest] eqn:Hs.
  - exfalso. destruct Hex as [k Hk]. apply sort_In in Hk. rewrite Hs in Hk. exact Hk.
  - exists m, rest. split; trivial.
    assert (Hm : In m modes) by (apply sort_In; rewrite Hs; now left).
    apply Hmodes in Hm. destruct Hm as [Hml HmM].
    repeat split; trivial.
    + intros w Hw. rewrite HmM. now apply Hbound.
    + intros w Hw Hocc. apply (sort_head_least modes m rest Hs).
      apply Hmodes. split; trivial. congruence.
Qed.

End ModeFacts.


(** ** handle_missing_values *)
Module HandleFacts.
Import Pd Prepare.

Lemma lookup_In (d : list (string * Column)) (nc : string * Column) :
  NoDup (map fst d) -> In nc d -> lookup (fst nc) d = Some (snd nc).
Proof.
  induction d as [|[n c] d IH]; simpl; intros Hnd Hin; [contradiction|].
  inversion Hnd as [|? ? Hn Hd]; subst.
  destruct Hin as [<-|Hin]; simpl.
  - now rewrite String.eqb_refl.
  - destruct (String.eqb_spec (fst nc) n) as [<-|_]; [|now apply IH].
    exfalso. apply Hn. now apply in_map.
Qed.

Lemma lookup_store_other (df : DataFrame) (col col' : string) (c : Column) :
  col' <> col -> lookup col' (data (store df col c)) = lookup col' (data df).
Proof.
  intros Hne. unfold store; simpl.
  induction (data df) as [|[n c0] d IH]; simpl; trivial.
  destruct (String.eqb_spec col n) as [->|Hn]; simpl.
  - destruct (String.eqb_spec col' n); [congruence|exact IH].
  - now rewrite IH.
Qed.

Lemma columns_store (df : DataFrame) (col : string) (c : Column) :
  columns (store df col c) = columns df.
Proof.
  unfold columns, store; simpl. rewrite map_map. apply map_ext.
  intros nc. now destruct (String.eqb col (fst nc)).
Qed.

Lemma NoDup_filter_labels (p : string * Column -> bool) (d : list (string * Column)) :
  NoDup (map fst d) -> NoDup (map fst (filter p d)).
Proof.
  induction d as [|nc d IH]; simpl; intros Hnd; [constructor|].
  inversion Hnd as [|? ? Hn Hd]; subst.
  destruct (p nc); simpl; [|now apply IH].
  constructor; [|now apply IH].
  intros Hin. apply Hn. apply in_map_iff in Hin. destruct Hin as (x & <- & Hx).
  apply filter_In in Hx. now apply in_map.
Qed.

(** With unique labels, a label belongs to the selected labels exactly when
    its column is selected. *)
Lemma label_selected (p : string * Column -> bool) (d : list (string * Column))
      (nc : string * Column) :
  NoDup (map fst d) -> In nc d ->
  existsb (String.eqb (fst nc)) (map fst (filter p d)) = p nc.
Proof.
  intros Hnd Hin. destruct (p nc) eqn:Hp.
  - apply existsb_exists. exists (fst nc). split; [|apply String.eqb_refl].
    apply in_map. apply filter_In. now split.
  - apply not_true_is_false. intros H. apply existsb_exists in H.
    destruct H as (x & Hx & Heq). apply String.eqb_eq in Heq. subst x.
    apply in_map_iff in Hx. destruct Hx as (nc' & Hfst & Hnc').
    apply filter_In in Hnc'. destruct Hnc' as [Hin' Hp'].
    assert (Hsame : Some (snd nc') = Some (snd nc)).
    { rewrite <- (lookup_In d nc' Hnd Hin'), <- (lookup_In d nc Hnd Hin).
      now rewrite Hfst. }
    injection Hsame as Hsnd. destruct nc, nc'; simpl in *; subst. congruence.
Qed.

Lemma flat_map_ext_In {A B} (g h : A -> list B) (l : list A) :
  (forall x, In x l -> g x = h x) -> flat_map g l = flat_map h l.
Proof.
  induction l as [|x l IH]; simpl; intros H; trivial.
  rewrite H by (now left). f_equal. apply IH. intros y Hy. apply H. now right.
Qed.

Section ForEachStore.

Variable body : DataFrame -> string -> Run DataFrame.
Variable f : Column -> option Column.
Variable ev : string -> Column -> Event.

Hypothesis body_fills : forall df col c c',
  lookup col (data df) = Some c -> f c = Some c' ->
  body df col = ([ev col c], Returned (store df col c')).

(** A loop that rewrites the column of each label in turn rewrites every
    listed column once, each from its content before the loop, and logs one
    message per label. *)
Lemma for_each_store (cols : list string) (df : DataFrame) :
  NoDup cols -> NoDup (columns df) ->
  (forall col, In col cols ->
     exists c c', lookup col (data df) = Some c /\ f c = Some c') ->
  for_each body cols df
  = (flat_map (fun col => match lookup col (data df) with
                          | Some c => [ev col c]
                          | None => []
                          end) cols,
     Returned {| index := index df;
                 data := map (fun nc => if existsb (String.eqb (fst nc)) cols
                                        then (fst nc, match f (snd nc) with
                                                      | Some c' => c'
                                                      | None => snd nc
                                                      end)
                                        else nc) (data df) |}).
Proof.
  revert df. induction cols as [|col cols IH]; intros df Hcols Hnd Hall; simpl.
  - unfold ret. destruct df as [idx d]; simpl. now rewrite map_id.
  - inversion Hcols as [|? ? Hcol Hcols']; subst.
    destruct (Hall col (or_introl eq_refl)) as (c & c' & Hc & Hfc).
    rewrite (body_fills df col c c' Hc Hfc). simpl.
    rewrite IH; trivial.
    + rewrite Hc. f_equal.
      * change ([ev col c] ++ ?l) with (ev col c :: l). f_equal.
        apply flat_map_ext_In. intros x Hx.
        rewrite lookup_store_other; trivial. intros ->. contradiction.
      * f_equal. unfold store; simpl. f_equal. rewrite map_map.
        apply map_ext_in. intros nc Hnc.
        destruct (String.eqb_spec col (fst nc)) as [Heq|Hne]; simpl.
        -- assert (Hx : existsb (String.eqb (fst nc)) cols = false).
           { apply not_true_is_false. intros H. apply existsb_exists in H.
             destruct H as (x & Hx & Hxeq). apply String.eqb_eq in Hxeq.
             subst x. congruence. }
           rewrite Hx, <- Heq, String.eqb_refl. simpl.
           rewrite Heq in Hc. rewrite (lookup_In (data df) nc Hnd Hnc) in Hc.
           injection Hc as <-. now rewrite Hfc, Heq.
        -- destruct (String.eqb_spec (fst nc) col); [congruence|reflexivity].
    + now rewrite columns_store.
    + intros col' Hcol'. rewrite lookup_store_other.
      * apply Hall. now right.
      * intros ->. contradiction.
Qed.

End ForEachStore.

(** The messages of a loop over the labels of some columns of the frame. *)
Lemma log_of_labels (ev : string -> Column -> Event) (d sel : list (string * Column)) :
  NoDup (map fst d) -> (forall nc, In nc sel -> In nc d) ->
  flat_map (fun col => match lookup col d with
                       | Some c => [ev col c]
                       | None => []
                       end) (map fst sel)
  = map (fun nc => ev (fst nc) (snd nc)) sel.
Proof.
  intros Hnd. induction sel as [|nc sel IH]; simpl; intros Hsub; trivial.
  rewrite (lookup_In d nc Hnd) by (apply Hsub; now left). simpl. f_equal.
  apply IH. intros x Hx. apply Hsub. now right.
Qed.

(** The first loop: every numeric column is filled with its own mean. *)
Lemma numeric_pass (df : DataFrame) :
  NoDup (columns df) ->
  for_each fill_with_mean (columns (select_dtypes is_number df)) df
  = (map (fun nc => FilledMean (fst nc) (mean (snd nc)))
         (filter (fun nc => is_number (snd nc)) (data df)),
     Returned {| index := index df;
                 data := map (fun nc => (fst nc,
                                if is_number (snd nc)
                                then fillna_float (mean (snd nc)) (snd nc)
                                else snd nc)) (data df) |}).
Proof.
  intros Hnd.
  rewrite (for_each_store fill_with_mean
             (fun c => Some (fillna_float (mean c) c))
             (fun col c => FilledMean col (mean c))).
  - f_equal.
    + unfold columns, select_dtypes; simpl.
      apply (log_of_labels (fun col c => FilledMean col (mean c))); trivial.
      intros nc Hnc. now apply filter_In in Hnc.
    + f_equal. f_equal. apply map_ext_in. intros nc Hnc.
      unfold columns, select_dtypes; simpl.
      rewrite (label_selected (fun nc => is_number (snd nc)) (data df) nc Hnd Hnc).
      destruct (is_number (snd nc)); trivial. now destruct nc.
  - intros df0 col c c' Hc Hf. injection Hf as <-.
    unfold fill_with_mean, getitem. rewrite Hc. reflexivity.
  - apply NoDup_filter_labels, Hnd.
  - exact Hnd.
  - intros col Hcol. unfold columns, select_dtypes in Hcol; simpl in Hcol.
    apply in_map_iff in Hcol. destruct Hcol as (nc & <- & Hnc).
    apply filter_In in Hnc. destruct Hnc as [Hnc _].
    exists (snd nc). eexists. split; [now apply lookup_In|reflexivity].
Qed.

Lemma filter_map_fixed {A} (p : A -> bool) (g : A -> A) (l : list A) :
  (forall x, p (g x) = p x /\ (p x = true -> g x = x)) ->
  filter p (map g l) = filter p l.
Proof.
  intros H. induction l as [|x l IH]; simpl; trivial.
  destruct (H x) as [Hp Hg]. rewrite Hp. destruct (p x); trivial.
  now rewrite Hg, IH.
Qed.

(** The second loop: every object column that has a mode is filled with the
    first of its modes. *)
Lemma categorical_pass (df : DataFrame) :
  NoDup (columns df) ->
  (forall name v, In (name, ColObject v) (data df) -> dropna_obj v <> []) ->
  for_each fill_with_mode (columns (select_dtypes is_object df)) df
  = (map (fun nc => FilledMode (fst nc)
                      (hd ""%string (match snd nc with
                                     | ColObject v => mode v
                                     | _ => []
                                     end)))
         (filter (fun nc => is_object (snd nc)) (data df)),
     Returned {| index := index df;
                 data := map (fun nc => (fst nc,
                                if is_object (snd nc) then Spec.imputed (snd nc)
                                else snd nc)) (data df) |}).
Proof.
  intros Hnd Hmode.
  rewrite (for_each_store fill_with_mode
             (fun c => match c with
                       | ColObject v =>
                           match mode v with
                           | m :: _ => Some (fillna_str m c)
                           | [] => None
                           end
                       | _ => None
                       end)
             (fun col c => FilledMode col
                             (hd ""%string (match c with
                                            | ColObject v => mode v
                                            | _ => []
                                            end)))).
  - f_equal.
    + unfold columns, select_dtypes; simpl.
      apply (log_of_labels
               (fun col c => FilledMode col
                               (hd ""%string (match c with
                                              | ColObject v => mode v
                                              | _ => []
                                              end)))); trivial.
      intros nc Hnc. now apply filter_In in Hnc.
    + f_equal. f_equal. apply map_ext_in. intros nc Hnc.
      unfold columns, select_dtypes; simpl.
      rewrite (label_selected (fun nc => is_object (snd nc)) (data df) nc Hnd Hnc).
      destruct nc as [n c]; simpl. destruct c; simpl; trivial.
      now destruct (mode v).
  - intros df0 col c c' Hc Hf.
    unfold fill_with_mode, getitem. rewrite Hc.
    destruct c; try discriminate.
    destruct (mode v) as [|m rest] eqn:Hm; [discriminate|].
    injection Hf as <-. unfold bind, ret; simpl. rewrite Hm. reflexivity.
  - apply NoDup_filter_labels, Hnd.
  - exact Hnd.
  - intros col Hcol. unfold columns, select_dtypes in Hcol; simpl in Hcol.
    apply in_map_iff in Hcol. destruct Hcol as ([n c] & <- & Hnc).
    apply filter_In in Hnc. destruct Hnc as [Hnc Hobj]. simpl in *.
    destruct c; try discriminate.
    destruct (ModeFacts.mode_spec v (Hmode _ _ Hnc)) as (m & rest & Hm & _).
    exists (ColObject v). eexists. split.
    + now apply (lookup_In (data df) (n, ColObject v)).
    + rewrite Hm. reflexivity.
Qed.

Lemma imputed_is_number (c : Column) : is_number (Spec.imputed c) = is_number c.
Proof.
  destruct c; simpl; trivial. now destruct (mode v).
Qed.

Lemma imputed_is_object (c : Column) : is_object (Spec.imputed c) = is_object c.
Proof.
  destruct c; simpl; trivial. now destruct (mode v).
Qed.

(** [handle_missing_values] on a frame whose object columns each hold a
    non-missing value: what it logs and what it returns. *)
Lemma handle_missing_values_spec (df : DataFrame) :
  NoDup (columns df) ->
  (forall name v, In (name, ColObject v) (data df) -> dropna_obj v <> []) ->
  handle_missing_values df
  = (map (fun nc => FilledMean (fst nc) (mean (snd nc)))
         (filter (fun nc => is_number (snd nc)) (data df))
     ++ map (fun nc => FilledMode (fst nc)
                         (hd ""%string (match snd nc with
                                        | ColObject v => mode v
                                        | _ => []
                                        end)))
            (filter (fun nc => is_object (snd nc)) (data df)),
     Returned {| index := index df;
                 data := map (fun nc => (fst nc, Spec.imputed (snd nc))) (data df) |}).
Proof.
  intros Hnd Hmode. unfold handle_missing_values.
  rewrite (numeric_pass df Hnd).
  set (df1 := {| index := index df;
                 data := map (fun nc => (fst nc,
                                if is_number (snd nc)
                                then fillna_float (mean (snd nc)) (snd nc)
                                else snd nc)) (data df) |}).
  assert (Hcols1 : columns df1 = columns df).
  { unfold columns, df1; simpl. now rewrite map_map. }
  assert (Hobj1 : filter (fun nc => is_object (snd nc)) (data df1)
                  = filter (fun nc => is_object (snd nc)) (data df)).
  { unfold df1; simpl. apply filter_map_fixed.
    intros [n c]; destruct c; simpl; split; trivial; discriminate. }
  assert (Hmode1 : forall name v, In (name, ColObject v) (data df1) -> dropna_obj v <> []).
  { intros name v Hin.
    assert (Hf : In (name, ColObject v) (filter (fun nc => is_object (snd nc)) (data df1)))
      by (apply filter_In; now split).
    rewrite Hobj1 in Hf. apply filter_In in Hf. now apply (Hmode name v). }
  unfold bind at 1.
  rewrite (categorical_pass df1) by (rewrite ?Hcols1; assumption).
  rewrite Hobj1. unfold bind, ret. simpl. rewrite !app_nil_r. f_equal. f_equal. f_equal.
  rewrite map_map. apply map_ext. intros [n c]; simpl.
  destruct c; simpl; trivial.
Qed.

(** When the second loop returns, every listed column was an object column
    with a mode. *)
Lemma for_each_mode_returned (cols : list string) (df df' : DataFrame) (log : list Event) :
  NoDup cols ->
  for_each fill_with_mode cols df = (log, Returned df') ->
  forall col, In col cols ->
    exists v m rest, lookup col (data df) = Some (ColObject v) /\ mode v = m :: rest.
Proof.
  revert df log. induction cols as [|c0 cols IH]; intros df log Hnd Hret col Hin;
    [contradiction|].
  inversion Hnd as [|? ? Hc0 Hcols]; subst.
  change (for_each fill_with_mode (c0 :: cols) df)
    with (bind (fill_with_mode df c0) (fun s' => for_each fill_with_mode cols s'))
    in Hret.
  destruct (fill_with_mode df c0) as [l0 [df1|e]] eqn:Hstep;
    [|discriminate Hret].
  unfold fill_with_mode, getitem in Hstep.
  destruct (lookup c0 (data df)) as [c|] eqn:Hc; [|discriminate Hstep].
  destruct c as [z|x|b|v]; try discriminate Hstep.
  unfold bind, ret, first, info in Hstep; simpl in Hstep.
  destruct (mode v) as [|m rest] eqn:Hm; [discriminate Hstep|].
  simpl in Hstep. injection Hstep as _ <-.
  unfold bind in Hret.
  destruct (for_each fill_with_mode cols _) as [l' o] eqn:Hrest.
  injection Hret as _ Ho. subst o.
  destruct Hin as [<-|Hin].
  - exists v, m, rest. now split.
  - destruct (IH _ _ Hcols Hrest col Hin) as (v' & m' & rest' & Hl & Hm').
    exists v', m', rest'. split; trivial.
    rewrite lookup_store_other in Hl; trivial. intros ->. contradiction.
Qed.

Lemma mode_of_all_missing (v : list (option string)) :
  dropna_obj v = [] -> mode v = [].
Proof.
  intros H. unfold mode. now rewrite H.
Qed.

(** The first loop never raises on the labels of the frame. *)
Lemma handle_missing_values_returned (df df' : DataFrame) (log : list Event) :
  NoDup (columns df) ->
  handle_missing_values df = (log, Returned df') ->
  forall name v, In (name, ColObject v) (data df) -> dropna_obj v <> [].
Proof.
  intros Hnd Hret name v Hin Hnil.
  unfold handle_missing_values in Hret. rewrite (numeric_pass df Hnd) in Hret.
  set (df1 := {| index := index df;
                 data := map (fun nc => (fst nc,
                                if is_number (snd nc)
                                then fillna_float (mean (snd nc)) (snd nc)
                                else snd nc)) (data df) |}) in *.
  assert (Hcols1 : columns df1 = columns df).
  { unfold columns, df1; simpl. now rewrite map_map. }
  assert (Hin1 : In (name, ColObject v) (data df1)).
  { unfold df1; simpl. apply in_map_iff. exists (name, ColObject v). now split. }
  unfold bind at 1 in Hret.
  destruct (for_each fill_with_mode (columns (select_dtypes is_object df1)) df1)
    as [l2 o2] eqn:Hpass.
  destruct o2 as [df2|e]; [|unfold bind in Hret; discriminate Hret].
  assert (Hsel : In name (columns (select_dtypes is_object df1))).
  { unfold columns, select_dtypes; simpl.
    change name with (fst (name, ColObject v)). apply in_map.
    apply filter_In. now split. }
  destruct (for_each_mode_returned _ _ _ _
              (NoDup_filter_labels _ _ (eq_ind_r (@NoDup string) Hnd Hcols1))
              Hpass name Hsel) as (v' & m & rest & Hl & Hm).
  assert (Hl1 : lookup name (data df1) = Some (ColObject v)).
  { apply (lookup_In (data df1) (name, ColObject v)); trivial.
    fold (columns df1). now rewrite Hcols1. }
  rewrite Hl1 in Hl. injection Hl as <-.
  rewrite (mode_of_all_missing v Hnil) in Hm. discriminate Hm.
Qed.

(** What [handle_missing_values] returns, when it returns: the frame with
    every column imputed. *)
Lemma handle_missing_values_result (df df' : DataFrame) :
  NoDup (columns df) ->
  snd (handle_missing_values df) = Returned df' ->
  df' = {| index := index df;
           data := map (fun nc => (fst nc, Spec.imputed (snd nc))) (data df) |}.
Proof.
  intros Hnd Hret.
  destruct (handle_missing_values df) as [log o] eqn:Hh. simpl in Hret. subst o.
  pose proof (handle_missing_values_returned df df' log Hnd Hh) as Hmode.
  rewrite (handle_missing_values_spec df Hnd Hmode) in Hh.
  now injection Hh as _ <-.
Qed.

End HandleFacts.


(** ** Claims about handle_missing_values *)
Module ImputeFacts.
Import Pd Prepare HandleFacts.


Lemma lookup_imputed (df : DataFrame) (name : string) (c : Column) :
  NoDup (columns df) -> In (name, c) (data df) ->
  lookup name (map (fun nc => (fst nc, Spec.imputed (snd nc))) (data df))
  = Some (Spec.imputed c).
Proof.
  intros Hnd Hin.
  apply (lookup_In (map (fun nc => (fst nc, Spec.imputed (snd nc))) (data df))
           (name, Spec.imputed c)).
  - rewrite map_map. exact Hnd.
  - apply in_map_iff. exists (name, c). now split.
Qed.




(** Imputation leaves every cell that was not missing. *)
Lemma imputed_keeps_cells (c : Column) :
  Forall2 Spec.kept_unless_missing (cells c) (cells (Spec.imputed c)).
Proof.
  assert (Hsame : forall x : Cell, Spec.kept_unless_missing x x)
    by (intros x _; reflexivity).
  destruct c as [z|v|b|o]; simpl.
  - induction z; simpl; constructor; auto.
  - generalize (mean (ColFloat64 v)). intros mu.
    induction v as [|x v IH]; simpl; constructor; auto.
    unfold Spec.kept_unless_missing; simpl. intros Hx. now rewrite Hx.
  - induction b; simpl; constructor; auto.
  - destruct (mode o) as [|m rest]; simpl.
    + induction o; simpl; constructor; auto.
    + induction o as [|[s|] o IH]; simpl; constructor; auto.
      unfold Spec.kept_unless_missing; simpl. discriminate.
Qed.

Lemma rows_of_Forall2 {A} (R : A -> A -> Prop) (d : A) (n : nat)
      (cols cols' : list (list A)) :
  R d d -> Forall2 (Forall2 R) cols cols' ->
  Forall2 (Forall2 R) (Np.rows_of d n cols) (Np.rows_of d n cols').
Proof.
  intros Hd. revert cols cols'. induction n as [|n IH]; intros cols cols' H; simpl;
    constructor.
  - induction H as [|c c' cols cols' Hc _ IHc]; simpl; constructor; trivial.
    destruct Hc; simpl; trivial.
  - apply IH. induction H as [|c c' cols cols' Hc _ IHc]; simpl; constructor; trivial.
    destruct Hc; simpl; trivial.
Qed.

End ImputeFacts.




(** The column [1, 2, missing, 3]: the mean of 1, 2, 3 is 2.0 and the column
    becomes [1, 2, 2.0, 3]. *)
Example handle_missing_values_df_mean :
  Spec.mean_of_non_missing [1; 2; nan; 3]%float = 2%float /\
  handle_missing_values df_mean
  = ([FilledMean "a" 2],
     Returned {| index := range 4;
                 data := [("a"%string, ColFloat64 [1; 2; 2; 3]%float)] |}).
Proof. split; vm_compute; reflexivity. Qed.



Lemma wf_df_padded : wf df_padded.
Proof.
  repeat split.
  - repeat constructor; simpl; intuition discriminate.
  - discriminate.
  - repeat constructor.
Qed.


(** C3 as stated fails: in the column ["y", "x", missing] both values occur
    once and "y" comes first in row order, yet the missing cell is filled
    with "x". *)
Lemma handle_missing_values_mode_tie_counterexample :
  Spec.mode_first_in_row_order [Some "y"; Some "x"; None]%string = Some "y"%string /\
  exists df',
    snd (handle_missing_values df_tie) = Returned df' /\
    lookup "c" (data df') = Some (ColObject [Some "y"; Some "x"; Some "x"]%string) /\
    lookup "c" (data df')
    <> Some (fillna_str "y" (ColObject [Some "y"; Some "x"; None]%string)).
Proof.
  split; [reflexivity|]. eexists. split; [reflexivity|].
  split; [reflexivity|]. discriminate.
Qed.

(** C3, amended. For every well-formed table and every categorical column
    of it, when [handle_missing_values] returns, the column holds in each
    cell that was missing one and the same value [m] and its former value
    in every other cell, where [m] is a non-missing value of the column, no
    value of the column occurs more often than [m], and among the values
    that occur as often [m] is the least in code-point order.  The message
    for the column carries [m]. *)
Theorem handle_missing_values_fills_categorical_with_mode
        (df df' : DataFrame) (log : list Event) (name : string)
        (v : list (option string)) :
  wf df ->
  handle_missing_values df = (log, Returned df') ->
  In (name, ColObject v) (data df) ->
  exists m,
    lookup name (data df')
    = Some (ColObject (map (fun o => match o with
                                     | Some _ => o
                                     | None => Some m
                                     end) v)) /\
    In m (dropna_obj v) /\
    (forall w, In w (dropna_obj v) ->
       Spec.occurrences w (dropna_obj v) <= Spec.occurrences m (dropna_obj v)) /\
    (forall w, In w (dropna_obj v) ->
       Spec.occurrences w (dropna_obj v) = Spec.occurrences m (dropna_obj v) ->
       String.leb m w = true) /\
    In (FilledMode name m) log.
Proof.
  intros (Hnd & _ & _) Hret Hin.
  pose proof (HandleFacts.handle_missing_values_returned df df' log Hnd Hret) as Hmode.
  rewrite (HandleFacts.handle_missing_values_spec df Hnd Hmode) in Hret.
  injection Hret as <- <-. simpl.
  destruct (ModeFacts.mode_spec v (Hmode _ _ Hin)) as (m & rest & Hm & Hm1 & Hm2 & Hm3).
  exists m. repeat split; trivial.
  - rewrite (ImputeFacts.lookup_imputed df name (ColObject v) Hnd Hin).
    simpl. now rewrite Hm.
  - apply in_or_app. right.
    apply in_map_iff. exists (name, ColObject v). simpl. rewrite Hm. split; trivial.
    apply filter_In. now split.
Qed.

Lemma wf_df_mode : wf df_mode.
Proof.
  repeat split.
  - repeat constructor; simpl; intuition discriminate.
  - discriminate.
  - repeat constructor.
Qed.

Lemma handle_missing_values_fills_categorical_with_mode_witness :
  wf df_mode /\
  handle_missing_values df_mode
  = ([FilledMode "c" "x"],
     Returned {| index := range 4;
                 data := [("c", ColObject [Some "x"; Some "x"; Some "x"; Some "y"])]%string |}) /\
  exists m,
    lookup "c" [("c", ColObject [Some "x"; Some "x"; Some "x"; Some "y"])]%string
    = Some (ColObject (map (fun o => match o with
                                     | Some _ => o
                                     | None => Some m
                                     end) [Some "x"; Some "x"; None; Some "y"]%string)) /\
    In m (dropna_obj [Some "x"; Some "x"; None; Some "y"]%string) /\
    (forall w, In w (dropna_obj [Some "x"; Some "x"; None; Some "y"]%string) ->
       Spec.occurrences w (dropna_obj [Some "x"; Some "x"; None; Some "y"]%string)
       <= Spec.occurrences m (dropna_obj [Some "x"; Some "x"; None; Some "y"]%string)) /\
    (forall w, In w (dropna_obj [Some "x"; Some "x"; None; Some "y"]%string) ->
       Spec.occurrences w (dropna_obj [Some "x"; Some "x"; None; Some "y"]%string)
       = Spec.occurrences m (dropna_obj [Some "x"; Some "x"; None; Some "y"]%string) ->
       String.leb m w = true) /\
    In (FilledMode "c" m) [FilledMode "c" "x"].
Proof.
  split; [exact wf_df_mode|]. split; [reflexivity|].
  apply (handle_missing_values_fills_categorical_with_mode
           df_mode
           {| index := range 4;
              data := [("c", ColObject [Some "x"; Some "x"; Some "x"; Some "y"])]%string |}
           [FilledMode "c" "x"] "c"%string [Some "x"; Some "x"; None; Some "y"]%string
           wf_df_mode eq_refl (or_introl eq_refl)).
Defined.

(** ** Claims about all stages *)
Module StageFacts.
Import Pd Prepare.

(** [drop_duplicates] selects rows by a mask. *)
Lemma drop_duplicates_selects (df : DataFrame) :
  wf df ->
  exists mask,
    rows (drop_duplicates df) = Np.compress mask (rows df) /\
    index (drop_duplicates df) = Np.compress mask (index df).
Proof.
  intros (_ & _ & Hal). unfold drop_duplicates. destruct (empty df) eqn:He.
  - exists (repeat true (len df)).
    assert (Hall : Forall (fun b => b = true) (repeat true (len df)))
      by (apply Forall_forall; intros b Hb; now apply repeat_spec in Hb).
    split; rewrite NpFacts.compress_all_true; trivial;
      now rewrite ?DuplicateFacts.rows_length, repeat_length.
  - exists (map negb (duplicated df)). split; [|reflexivity].
    apply PdFacts.rows_getitem_bool; trivial.
    unfold duplicated. rewrite He, length_map.
    now rewrite DuplicateFacts.duplicated_from_length, DuplicateFacts.rows_length.
Qed.

Lemma columns_drop_duplicates (df : DataFrame) :
  columns (drop_duplicates df) = columns df.
Proof.
  unfold drop_duplicates. destruct (empty df); trivial.
  apply PdFacts.columns_getitem_bool.
Qed.

(** A loop whose turns keep the labels keeps the labels. *)
Lemma for_each_columns (body : DataFrame -> string -> Run DataFrame) :
  (forall df col l df', body df col = (l, Returned df') -> columns df' = columns df) ->
  forall cols df log df',
    for_each body cols df = (log, Returned df') -> columns df' = columns df.
Proof.
  intros Hbody. induction cols as [|col cols IH]; intros df log df' Hret.
  - injection Hret as _ <-. reflexivity.
  - change (for_each body (col :: cols) df)
      with (bind (body df col) (fun s' => for_each body cols s')) in Hret.
    destruct (body df col) as [l0 [df1|e]] eqn:Hstep; [|discriminate Hret].
    unfold bind in Hret.
    destruct (for_each body cols df1) as [l' o] eqn:Hrest.
    injection Hret as _ Ho. subst o.
    rewrite (IH _ _ _ Hrest). now apply (Hbody df col l0).
Qed.

Lemma fill_with_mean_columns (df : DataFrame) (col : string)
      (l : list Event) (df' : DataFrame) :
  fill_with_mean df col = (l, Returned df') -> columns df' = columns df.
Proof.
  unfold fill_with_mean, getitem.
  destruct (lookup col (data df)) as [c|]; [|discriminate].
  unfold bind, ret, info; simpl. intros H. injection H as _ <-.
  apply HandleFacts.columns_store.
Qed.

Lemma fill_with_mode_columns (df : DataFrame) (col : string)
      (l : list Event) (df' : DataFrame) :
  fill_with_mode df col = (l, Returned df') -> columns df' = columns df.
Proof.
  unfold fill_with_mode, getitem.
  destruct (lookup col (data df)) as [c|]; [|discriminate].
  unfold bind, ret, info; simpl.
  destruct (first _) as [l0 [m|e]]; [|discriminate].
  intros H. injection H as _ <-.
  apply HandleFacts.columns_store.
Qed.

(** [handle_missing_values] keeps the labels, whatever they are. *)
Lemma handle_missing_values_columns (df df' : DataFrame) :
  snd (handle_missing_values df) = Returned df' -> columns df' = columns df.
Proof.
  unfold handle_missing_values.
  destruct (for_each fill_with_mean (columns (select_dtypes is_number df)) df)
    as [l1 [df1|e]] eqn:H1; [|discriminate].
  unfold bind at 1.
  destruct (for_each fill_with_mode (columns (select_dtypes is_object df1)) df1)
    as [l2 [df2|e]] eqn:H2; [|discriminate].
  simpl. intros H. injection H as <-.
  rewrite (for_each_columns fill_with_mode fill_with_mode_columns _ _ _ _ H2).
  apply (for_each_columns fill_with_mean fill_with_mean_columns _ _ _ _ H1).
Qed.

Lemma columns_set_columns (df : DataFrame) (labels : list string) :
  length labels = length (data df) -> columns (set_columns df labels) = labels.
Proof.
  unfold columns, set_columns; simpl. rewrite map_map; simpl.
  generalize (data df). induction labels as [|x labels IH]; intros [|nc d]; simpl;
    trivial; try discriminate.
  intros H. injection H as H. now rewrite IH.
Qed.

(** The outcome of [main] is that of its three stages in sequence. *)
Lemma main_outcome (df : DataFrame) :
  snd (main df)
  = match snd (handle_missing_values
                 (drop_duplicates (set_columns df (map PyStr.strip (columns df))))) with
    | Returned df2 =>
        Returned (getitem_bool df2 (outlier_mask df2 default_z_threshold))
    | Raised e => Raised e
    end.
Proof.
  unfold main, remove_duplicates, remove_outliers.
  set (df0 := set_columns df (map PyStr.strip (columns df))).
  destruct (filter _ (combine (columns df) (columns df0))) as [|ch chs];
    unfold bind, info, ret; cbn beta iota;
    destruct (handle_missing_values (drop_duplicates df0)) as [l2 [df2|e]];
    reflexivity.
Qed.

End StageFacts.

(** C9. For every well-formed table, [remove_duplicates] and
    [remove_outliers] return a selection of the rows of the table, each row
    with all its cells as they were and in the original order, and
    [handle_missing_values], when it returns, returns a table with the same
    index, the same columns and the same number of rows in which every cell
    that was not missing has its former value at its former place. *)
Theorem stages_change_cells_only_by_filling (df : DataFrame) :
  wf df ->
  (exists df1 mask,
     snd (remove_duplicates df) = Returned df1 /\
     rows df1 = Np.compress mask (rows df)) /\
  (forall t, exists df3 mask,
     snd (remove_outliers df t) = Returned df3 /\
     rows df3 = Np.compress mask (rows df)) /\
  (forall df2,
     snd (handle_missing_values df) = Returned df2 ->
     index df2 = index df /\ columns df2 = columns df /\ len df2 = len df /\
     Forall2 (Forall2 Spec.kept_unless_missing) (rows df) (rows df2)).
Proof.
  intros Hwf. split; [|split].
  - destruct (StageFacts.drop_duplicates_selects df Hwf) as (mask & Hrows & _).
    exists (drop_duplicates df), mask. now split.
  - intros t. exists (getitem_bool df (outlier_mask df t)), (outlier_mask df t).
    split; [reflexivity|]. destruct Hwf as (_ & _ & Hal).
    apply PdFacts.rows_getitem_bool; trivial. apply OutlierFacts.outlier_mask_length.
  - intros df2 Hret. destruct Hwf as (Hnd & _ & _).
    rewrite (HandleFacts.handle_missing_values_result df df2 Hnd Hret).
    unfold columns, len, rows; simpl. rewrite !map_map; simpl.
    repeat split.
    apply ImputeFacts.rows_of_Forall2.
    + intros _. reflexivity.
    + induction (data df) as [|nc d IH]; simpl; constructor; trivial.
      apply ImputeFacts.imputed_keeps_cells.
Qed.

Lemma stages_change_cells_only_by_filling_witness :
  wf df_padded /\
  (exists df1 mask,
     snd (remove_duplicates df_padded) = Returned df1 /\
     rows df1 = Np.compress mask (rows df_padded)) /\
  (forall t, exists df3 mask,
     snd (remove_outliers df_padded t) = Returned df3 /\
     rows df3 = Np.compress mask (rows df_padded)) /\
  (forall df2,
     snd (handle_missing_values df_padded) = Returned df2 ->
     index df2 = index df_padded /\ columns df2 = columns df_padded /\
     len df2 = len df_padded /\
     Forall2 (Forall2 Spec.kept_unless_missing) (rows df_padded) (rows df2)).
Proof.
  split; [exact wf_df_padded|].
  apply (stages_change_cells_only_by_filling df_padded wf_df_padded).
Defined.

(** C8. For every table, when the pipeline of [main] (the trimming of the
    column names, then duplicate removal, imputation and outlier removal)
    returns, the columns of the result are the columns of the input with
    surrounding whitespace trimmed from each name, in the same order. *)
Theorem main_keeps_columns_trimmed (df df' : DataFrame) :
  snd (main df) = Returned df' ->
  columns df' = map PyStr.strip (columns df).
Proof.
  rewrite StageFacts.main_outcome.
  destruct (snd (handle_missing_values _)) as [df2|e] eqn:Hh; [|discriminate].
  intros H. injection H as <-.
  rewrite PdFacts.columns_getitem_bool.
  rewrite (StageFacts.handle_missing_values_columns _ _ Hh).
  rewrite StageFacts.columns_drop_duplicates.
  apply StageFacts.columns_set_columns.
  unfold columns. now rewrite !length_map.
Qed.

Lemma main_keeps_columns_trimmed_witness :
  snd (main df_padded)
  = Returned {| index := [];
                data := [("id", ColInt64 []); ("name", ColObject []);
                         ("spend", ColFloat64 [])]%string |} /\
  ["id"; "name"; "spend"]%string = map PyStr.strip (columns df_padded).
Proof.
  split; [reflexivity|].
  apply (main_keeps_columns_trimmed
           df_padded
           {| index := [];
              data := [("id", ColInt64 []); ("name", ColObject []);
                       ("spend", ColFloat64 [])]%string |}
           eq_refl).
Defined.

(** No stage adds or removes a column. *)
Lemma stages_keep_columns (df : DataFrame) (t : float) :
  (forall df', snd (remove_duplicates df) = Returned df' -> columns df' = columns df) /\
  (forall df', snd (handle_missing_values df) = Returned df' -> columns df' = columns df) /\
  (forall df', snd (remove_outliers df t) = Returned df' -> columns df' = columns df).
Proof.
  repeat split.
  - intros df' H. injection H as <-. apply StageFacts.columns_drop_duplicates.
  - apply StageFacts.handle_missing_values_columns.
  - intros df' H. injection H as <-. apply PdFacts.columns_getitem_bool.
Qed.

(** Why the scores of a constant column are set apart: the mean of
    [0.1, 0.1, 0.1] rounds to a neighbour of 0.1, so the plain quotient
    would give every row the score -1; scipy detects the constant column
    and returns NaN. *)
Example zscore_constant_column_rounding :
  map (fun x => ((x - Np.mean [0x1.999999999999ap-4; 0x1.999999999999ap-4; 0x1.999999999999ap-4])
                 / Np.std [0x1.999999999999ap-4; 0x1.999999999999ap-4; 0x1.999999999999ap-4])%float)
      [0x1.999999999999ap-4; 0x1.999999999999ap-4; 0x1.999999999999ap-4]%float
  = [(-1)%float; (-1)%float; (-1)%float] /\
  Stats.zscore_column [0x1.999999999999ap-4; 0x1.999999999999ap-4; 0x1.999999999999ap-4]%float
  = [nan; nan; nan].
Proof. split; vm_compute; reflexivity. Qed.


(* ================================================================== *)
(** * Part III: further properties of the cleaning functions           *)
(* ================================================================== *)

(** ** The frame invariant through the stages *)
Module WfFacts.
Import Pd Prepare Dtypes.

Lemma col_length_compress (mask : list bool) (c : Column) :
  col_length c = length mask ->
  col_length (col_compress mask c) = length (filter (fun b => b) mask).
Proof.
  unfold col_length. rewrite PdFacts.cells_col_compress.
  apply NpFacts.compress_length.
Qed.

Lemma dtype_col_compress (mask : list bool) (c : Column) :
  dtype (col_compress mask c) = dtype c.
Proof. now destruct c. Qed.

Lemma dtype_imputed (c : Column) : dtype (Spec.imputed c) = dtype c.
Proof.
  destruct c; simpl; trivial. now destruct (mode v).
Qed.

Lemma col_length_imputed (c : Column) : col_length (Spec.imputed c) = col_length c.
Proof.
  unfold col_length.
  pose proof (ImputeFacts.imputed_keeps_cells c) as H.
  symmetry. eapply Forall2_length. exact H.
Qed.

(** Selecting rows by a mask as long as the frame keeps the invariant. *)
Lemma wf_getitem_bool (df : DataFrame) (mask : list bool) :
  wf df -> length mask = len df -> wf (getitem_bool df mask).
Proof.
  intros (Hnd & Hne & Hal) Hm. repeat split.
  - now rewrite PdFacts.columns_getitem_bool.
  - unfold getitem_bool; simpl. destruct (data df); [contradiction|discriminate].
  - unfold getitem_bool, len; simpl.
    rewrite NpFacts.compress_length by (symmetry; exact Hm).
    apply Forall_map. eapply Forall_impl; [|exact Hal].
    intros nc H; simpl. apply col_length_compress. now rewrite H.
Qed.

Lemma duplicated_length (df : DataFrame) :
  empty df = false -> length (map negb (duplicated df)) = len df.
Proof.
  intros He. unfold duplicated. rewrite He, length_map.
  now rewrite DuplicateFacts.duplicated_from_length, DuplicateFacts.rows_length.
Qed.

Lemma wf_drop_duplicates (df : DataFrame) : wf df -> wf (drop_duplicates df).
Proof.
  intros Hwf. unfold drop_duplicates. destruct (empty df) eqn:He; trivial.
  apply wf_getitem_bool; trivial. now apply duplicated_length.
Qed.

Lemma wf_imputed (df : DataFrame) :
  wf df ->
  wf {| index := index df;
        data := map (fun nc => (fst nc, Spec.imputed (snd nc))) (data df) |}.
Proof.
  intros (Hnd & Hne & Hal). repeat split.
  - unfold columns; simpl. now rewrite map_map.
  - simpl. destruct (data df); [contradiction|discriminate].
  - unfold len; simpl. apply Forall_map. eapply Forall_impl; [|exact Hal].
    intros nc H; simpl. now rewrite col_length_imputed.
Qed.

End WfFacts.

Import Dtypes MoreSamples.

Lemma wf_df_repeat : wf df_repeat.
Proof.
  repeat split.
  - repeat constructor; simpl; intuition discriminate.
  - discriminate.
  - repeat constructor.
Qed.

Lemma wf_df_gap : wf df_gap.
Proof.
  repeat split.
  - repeat constructor; simpl; intuition discriminate.
  - discriminate.
  - repeat constructor.
Qed.

Lemma wf_df_spread : wf df_spread.
Proof.
  repeat split.
  - repeat constructor; simpl; intuition discriminate.
  - discriminate.
  - repeat constructor.
Qed.

Lemma wf_df_header : wf df_header.
Proof.
  repeat split.
  - repeat constructor; simpl; intuition discriminate.
  - discriminate.
  - repeat constructor.
Qed.

Lemma wf_df_unnamed : wf df_unnamed.
Proof.
  repeat split.
  - repeat constructor; simpl; intuition discriminate.
  - discriminate.
  - repeat constructor.
Qed.


(** X1. Each stage keeps the invariant of the frame and the dtype of every
    column: from a well-formed table, whatever [remove_duplicates],
    [handle_missing_values] or [remove_outliers] returns is a well-formed
    table (unique labels, every column as long as the index) with the same
    dtypes in the same order. *)
Theorem stages_keep_frame_invariant (df : DataFrame) :
  wf df ->
  (forall df', snd (remove_duplicates df) = Returned df' ->
     wf df' /\ dtypes df' = dtypes df) /\
  (forall df', snd (handle_missing_values df) = Returned df' ->
     wf df' /\ dtypes df' = dtypes df) /\
  (forall t df', snd (remove_outliers df t) = Returned df' ->
     wf df' /\ dtypes df' = dtypes df).
Proof.
  intros Hwf.
  assert (Hmask : forall mask, dtypes (getitem_bool df mask) = dtypes df).
  { intros mask. unfold dtypes, getitem_bool; simpl. rewrite map_map.
    apply map_ext. intros nc. apply WfFacts.dtype_col_compress. }
  split; [|split].
  - intros df' H. injection H as <-. split; [now apply WfFacts.wf_drop_duplicates|].
    unfold drop_duplicates. destruct (empty df); trivial.
  - intros df' H. destruct Hwf as (Hnd & Hne & Hal).
    rewrite (HandleFacts.handle_missing_values_result df df' Hnd H).
    split; [apply WfFacts.wf_imputed; now repeat split|].
    unfold dtypes; simpl. rewrite map_map. apply map_ext.
    intros nc. apply WfFacts.dtype_imputed.
  - intros t df' H. injection H as <-. split; trivial.
    apply WfFacts.wf_getitem_bool; trivial. apply OutlierFacts.outlier_mask_length.
Qed.

Lemma stages_keep_frame_invariant_witness :
  wf df_repeat /\
  (forall df', snd (remove_duplicates df_repeat) = Returned df' ->
     wf df' /\ dtypes df' = dtypes df_repeat) /\
  (forall df', snd (handle_missing_values df_repeat) = Returned df' ->
     wf df' /\ dtypes df' = dtypes df_repeat) /\
  (forall t df', snd (remove_outliers df_repeat t) = Returned df' ->
     wf df' /\ dtypes df' = dtypes df_repeat).
Proof.
  split; [exact wf_df_repeat|].
  apply (stages_keep_frame_invariant df_repeat wf_df_repeat).
Defined.

(** X2. Neither [remove_duplicates] nor [remove_outliers] ever adds a row,
    and the count each of them reports lies between zero and the number of
    rows of its input. *)
Theorem row_removing_stages_report_counts (df : DataFrame) (t : float) :
  exists df1 df3 sh,
    remove_duplicates df = ([RemovedDuplicates (Z.of_nat (len df) - Z.of_nat (len df1))],
                            Returned df1) /\
    remove_outliers df t
    = ([OutliersStart (shape df);
        OutliersRemoved (Z.of_nat (len df) - Z.of_nat (len df3)) sh;
        OutliersEnd], Returned df3) /\
    sh = shape df3 /\ snd sh = snd (shape df) /\
    len df1 <= len df /\ len df3 <= len df /\
    (0 <= Z.of_nat (len df) - Z.of_nat (len df1) <= Z.of_nat (len df))%Z /\
    (0 <= Z.of_nat (len df) - Z.of_nat (len df3) <= Z.of_nat (len df))%Z.
Proof.
  exists (drop_duplicates df), (getitem_bool df (outlier_mask df t)),
         (shape (getitem_bool df (outlier_mask df t))).
  assert (H1 : len (drop_duplicates df) <= len df).
  { unfold drop_duplicates. destruct (empty df); [lia|].
    apply PdFacts.len_getitem_bool_le. }
  pose proof (PdFacts.len_getitem_bool_le df (outlier_mask df t)) as H3.
  repeat split; trivial; try lia.
  unfold shape, getitem_bool; simpl. now rewrite length_map.
Qed.

(** X3. [remove_duplicates] is idempotent: applied to its own result on a
    well-formed table it removes nothing, reports zero and returns the same
    table. *)
Theorem remove_duplicates_idempotent (df : DataFrame) :
  wf df ->
  exists df1,
    snd (remove_duplicates df) = Returned df1 /\
    remove_duplicates df1 = ([RemovedDuplicates 0], Returned df1).
Proof.
  intros Hwf. exists (drop_duplicates df). split; [reflexivity|].
  pose proof (WfFacts.wf_drop_duplicates df Hwf) as Hwf1.
  pose proof (DuplicateFacts.rows_drop_duplicates df Hwf) as Hrows.
  set (d1 := drop_duplicates df) in *.
  assert (Hsame : drop_duplicates d1 = d1).
  { unfold drop_duplicates at 1. destruct (empty d1) eqn:He; trivial.
    destruct Hwf1 as (_ & _ & Hal).
    apply PdFacts.getitem_bool_all_true; trivial.
    - now apply WfFacts.duplicated_length.
    - unfold duplicated. rewrite He, Hrows. unfold Spec.first_occurrences.
      apply Forall_map.
      apply Forall_impl with (P := fun b : bool => b = false);
        [intros b Hb; subst b; reflexivity|].
      apply DuplicateFacts.duplicated_from_distinct.
      + intros k _. reflexivity.
      + apply DuplicateFacts.first_occurrences_from_distinct. }
  unfold remove_duplicates. rewrite Hsame. unfold bind, info, ret; simpl.
  now rewrite Z.sub_diag.
Qed.

Lemma remove_duplicates_idempotent_witness :
  wf df_repeat /\
  exists df1,
    snd (remove_duplicates df_repeat) = Returned df1 /\
    remove_duplicates df1 = ([RemovedDuplicates 0], Returned df1).
Proof.
  split; [exact wf_df_repeat|].
  apply (remove_duplicates_idempotent df_repeat wf_df_repeat).
Defined.

(** X4. After [remove_duplicates] on a well-formed table no two rows are
    equal, and no row is lost without a representative: every row of the
    input equals some row of the result.  Equality of rows treats a missing
    cell as equal to a missing cell. *)
Theorem remove_duplicates_distinct_and_complete (df : DataFrame) :
  wf df ->
  exists df1,
    snd (remove_duplicates df) = Returned df1 /\
    ForallOrdPairs (fun a b => row_eqb b a = false) (rows df1) /\
    (forall r, In r (rows df) -> existsb (row_eqb r) (rows df1) = true).
Proof.
  intros Hwf. exists (drop_duplicates df). split; [reflexivity|].
  rewrite (DuplicateFacts.rows_drop_duplicates df Hwf). split.
  - apply DuplicateFacts.first_occurrences_from_distinct.
  - intros r Hr.
    apply (DuplicateFacts.first_occurrences_from_covers [] (rows df) r Hr).
Qed.

Lemma remove_duplicates_distinct_and_complete_witness :
  wf df_repeat /\
  exists df1,
    snd (remove_duplicates df_repeat) = Returned df1 /\
    ForallOrdPairs (fun a b => row_eqb b a = false) (rows df1) /\
    (forall r, In r (rows df_repeat) -> existsb (row_eqb r) (rows df1) = true).
Proof.
  split; [exact wf_df_repeat|].
  apply (remove_duplicates_distinct_and_complete df_repeat wf_df_repeat).
Defined.

(** The rows [ann, 1], [missing, missing], [ann, 1], [missing, missing],
    [bob, 2]: the third and the fourth go. *)
Example remove_duplicates_df_repeat :
  remove_duplicates df_repeat
  = ([RemovedDuplicates 2],
     Returned {| index := [0; 1; 4]%Z;
                 data := [("name", ColObject [Some "ann"; None; Some "bob"]);
                          ("spend", ColFloat64 [1; nan; 2]%float)]%string |}).
Proof. vm_compute. reflexivity. Qed.

(** ** Further facts about handle_missing_values *)
Module HandleMore.
Import Pd Prepare HandleFacts.

Lemma lookup_label (col : string) (d : list (string * Column)) :
  In col (map fst d) -> lookup col d <> None.
Proof.
  induction d as [|[n c] d IH]; simpl; [contradiction|].
  intros [->|Hin]; [now rewrite String.eqb_refl|].
  destruct (String.eqb col n); [discriminate|now apply IH].
Qed.

Lemma lookup_store_some (df : DataFrame) (col col' : string) (c : Column) :
  lookup col' (data df) <> None -> lookup col' (data (store df col c)) <> None.
Proof.
  intros H. apply lookup_label. fold (columns (store df col c)).
  rewrite columns_store. unfold columns.
  destruct (lookup col' (data df)) as [c0|] eqn:E; [|congruence]. clear H.
  induction (data df) as [|[n c1] d IH]; simpl in *; [discriminate|].
  destruct (String.eqb_spec col' n) as [->|_]; [now left|right; now apply IH].
Qed.

(** When the second loop raises on labels of the frame, what it raises is
    the [KeyError] of [mode()[0]]. *)
Lemma for_each_mode_raises (cols : list string) (df : DataFrame)
      (log : list Event) (e : Exn) :
  (forall col, In col cols -> lookup col (data df) <> None) ->
  for_each fill_with_mode cols df = (log, Raised e) ->
  e = KeyError "0".
Proof.
  revert df log. induction cols as [|c0 cols IH]; intros df log Hall Hret;
    [discriminate Hret|].
  change (for_each fill_with_mode (c0 :: cols) df)
    with (bind (fill_with_mode df c0) (fun s' => for_each fill_with_mode cols s'))
    in Hret.
  destruct (fill_with_mode df c0) as [l0 [df1|e0]] eqn:Hstep.
  - unfold bind in Hret.
    destruct (for_each fill_with_mode cols df1) as [l' o] eqn:Hrest.
    injection Hret as _ Ho. subst o.
    apply (IH df1 l'); trivial.
    intros col Hcol.
    unfold fill_with_mode, getitem in Hstep.
    destruct (lookup c0 (data df)) as [c|]; [|discriminate Hstep].
    unfold bind, ret, info in Hstep; simpl in Hstep.
    destruct (first _) as [l1 [m|e1]]; [|discriminate Hstep].
    injection Hstep as _ <-. apply lookup_store_some. apply Hall. now right.
  - unfold bind in Hret. injection Hret as _ <-.
    unfold fill_with_mode, getitem in Hstep.
    destruct (lookup c0 (data df)) as [c|] eqn:Hc.
    + unfold bind, ret, info in Hstep; simpl in Hstep.
      destruct (match c with ColObject v => mode v | _ => [] end) as [|m rest];
        simpl in Hstep; [|discriminate Hstep].
      now injection Hstep as _ <-.
    + exfalso. apply (Hall c0 (or_introl eq_refl)). exact Hc.
Qed.

(** A NaN is the NaN. *)
Lemma isnan_eq (x : float) : F64.isnan x = true -> x = nan.
Proof.
  unfold F64.isnan. rewrite eqb_spec. intros H.
  apply Prim2SF_inj. change (Prim2SF nan) with S754_nan.
  destruct (Prim2SF x) as [s|s| |s m e]; trivial; exfalso;
    unfold SFeqb, SFcompare in H.
  - discriminate H.
  - destruct s; discriminate H.
  - rewrite Z.compare_refl in H.
    change (Pos.compare_cont Eq m m) with (Pos.compare m m) in H.
    rewrite Pos.compare_refl in H. destruct s; discriminate H.
Qed.

Lemma fillna_float_fixed (mu : float) (v : list float) :
  F64.isnan mu = true ->
  map (fun x => if F64.isnan x then mu else x) v = v.
Proof.
  intros Hmu. rewrite <- (map_id v) at 2. apply map_ext. intros x.
  destruct (F64.isnan x) eqn:E; trivial.
  now rewrite (isnan_eq x E), (isnan_eq mu Hmu).
Qed.

Lemma fillna_float_twice (mu mu' : float) (v : list float) :
  F64.isnan mu = false ->
  map (fun x => if F64.isnan x then mu' else x)
      (map (fun x => if F64.isnan x then mu else x) v)
  = map (fun x => if F64.isnan x then mu else x) v.
Proof.
  intros Hmu. rewrite map_map. apply map_ext. intros x.
  destruct (F64.isnan x) eqn:E; [now rewrite Hmu|now rewrite E].
Qed.

(** Imputing an imputed column changes nothing. *)
Lemma imputed_idempotent (c : Column) :
  Spec.imputed (Spec.imputed c) = Spec.imputed c.
Proof.
  destruct c as [z|v|b|o]; trivial.
  - change (Spec.imputed (ColFloat64 v))
      with (ColFloat64 (map (fun x => if F64.isnan x then mean (ColFloat64 v) else x) v)).
    destruct (F64.isnan (mean (ColFloat64 v))) eqn:Hmu.
    + rewrite (fillna_float_fixed _ v Hmu).
      change (Spec.imputed (ColFloat64 v))
        with (ColFloat64 (map (fun x => if F64.isnan x then mean (ColFloat64 v) else x) v)).
      now rewrite (fillna_float_fixed _ v Hmu).
    + set (v' := map (fun x => if F64.isnan x then mean (ColFloat64 v) else x) v).
      change (Spec.imputed (ColFloat64 v'))
        with (ColFloat64 (map (fun x => if F64.isnan x then mean (ColFloat64 v') else x) v')).
      apply (f_equal ColFloat64). unfold v' at 2 3. now apply fillna_float_twice.
  - assert (Hstep : forall w, Spec.imputed (ColObject w)
                              = match mode w with
                                | m :: _ => ColObject (map (fun o => match o with
                                                                     | Some _ => o
                                                                     | None => Some m
                                                                     end) w)
                                | [] => ColObject w
                                end) by reflexivity.
    rewrite (Hstep o). destruct (mode o) as [|m rest] eqn:Hm.
    + now rewrite Hstep, Hm.
    + rewrite Hstep.
      match goal with
      | |- context [mode ?w] => destruct (mode w) as [|m' rest']; trivial
      end.
      apply (f_equal ColObject). rewrite map_map. apply map_ext. now intros [s|].
Qed.

Lemma dropna_obj_imputed (name : string) (v' : list (option string)) (df : DataFrame) :
  (forall n v, In (n, ColObject v) (data df) -> dropna_obj v <> []) ->
  In (name, ColObject v')
     (map (fun nc => (fst nc, Spec.imputed (snd nc))) (data df)) ->
  dropna_obj v' <> [].
Proof.
  intros Hmode Hin. apply in_map_iff in Hin. destruct Hin as ([n c] & Heq & Hin).
  simpl in Heq. injection Heq as -> Hc.
  destruct c as [z|x|b|o]; try discriminate Hc.
  specialize (Hmode _ _ Hin). simpl in Hc.
  destruct (mode o) as [|m rest]; simpl in Hc; injection Hc as <-; trivial.
  clear Hin. induction o as [|[s|] o IH]; simpl in *; try discriminate.
  congruence.
Qed.

(** On a frame with unique labels and an object column without a value,
    the second loop raises the [KeyError] of [mode()[0]]. *)
Lemma mode_pass_raises (df : DataFrame) (name : string) (v : list (option string)) :
  NoDup (columns df) ->
  In (name, ColObject v) (data df) -> dropna_obj v = [] ->
  exists log2,
    for_each fill_with_mode (columns (select_dtypes is_object df)) df
    = (log2, Raised (KeyError "0")).
Proof.
  intros Hnd Hin Hnil.
  destruct (for_each fill_with_mode (columns (select_dtypes is_object df)) df)
    as [l2 [df2|e]] eqn:Hpass.
  - exfalso.
    assert (Hsel : In name (columns (select_dtypes is_object df))).
    { unfold columns, select_dtypes; simpl.
      change name with (fst (name, ColObject v)). apply in_map.
      apply filter_In. now split. }
    destruct (for_each_mode_returned _ _ _ _
                (NoDup_filter_labels _ _ Hnd)
                Hpass name Hsel) as (v' & m & rest & Hl & Hm).
    assert (Hl1 : lookup name (data df) = Some (ColObject v))
      by (now apply (lookup_In (data df) (name, ColObject v))).
    rewrite Hl1 in Hl. injection Hl as <-.
    rewrite (mode_of_all_missing v Hnil) in Hm. discriminate Hm.
  - exists l2. f_equal. f_equal.
    apply (for_each_mode_raises _ _ _ _) with (2 := Hpass).
    intros col Hcol. apply lookup_label.
    unfold columns, select_dtypes in Hcol; simpl in Hcol.
    apply in_map_iff in Hcol. destruct Hcol as (nc & <- & Hnc).
    apply filter_In in Hnc. now apply in_map.
Qed.

(** The frame between the two loops. *)
Lemma after_numeric_pass (df : DataFrame) (name : string) (v : list (option string)) :
  NoDup (columns df) -> In (name, ColObject v) (data df) ->
  let df1 := {| index := index df;
                data := map (fun nc => (fst nc,
                               if is_number (snd nc)
                               then fillna_float (mean (snd nc)) (snd nc)
                               else snd nc)) (data df) |} in
  NoDup (columns df1) /\ In (name, ColObject v) (data df1).
Proof.
  intros Hnd Hin df1. split.
  - unfold columns, df1; simpl. now rewrite map_map.
  - unfold df1; simpl. apply in_map_iff. exists (name, ColObject v). now split.
Qed.


End HandleMore.

(** X5. [handle_missing_values] raises [KeyError] when a categorical column
    of a well-formed table has no non-missing value (all cells missing, or a
    table without rows): [mode()] is empty and [mode()[0]] fails.  The
    numeric columns have been filled and their messages logged by then. *)
Theorem handle_missing_values_raises_without_mode
        (df : DataFrame) (name : string) (v : list (option string)) :
  wf df ->
  In (name, ColObject v) (data df) -> dropna_obj v = [] ->
  exists log2,
    handle_missing_values df
    = (map (fun nc => FilledMean (fst nc) (mean (snd nc)))
           (filter (fun nc => is_number (snd nc)) (data df)) ++ log2,
       Raised (KeyError "0")).
Proof.
  intros (Hnd & _ & _) Hin Hnil.
  unfold handle_missing_values. rewrite (HandleFacts.numeric_pass df Hnd).
  destruct (HandleMore.after_numeric_pass df name v Hnd Hin) as [Hnd1 Hin1].
  destruct (HandleMore.mode_pass_raises _ name v Hnd1 Hin1 Hnil) as (log2 & Hpass).
  exists log2. unfold bind at 1. rewrite Hpass. reflexivity.
Qed.

Lemma handle_missing_values_raises_without_mode_witness :
  wf df_header /\ In ("name"%string, ColObject []) (data df_header) /\
  dropna_obj [] = [] /\
  exists log2,
    handle_missing_values df_header
    = (map (fun nc => FilledMean (fst nc) (mean (snd nc)))
           (filter (fun nc => is_number (snd nc)) (data df_header)) ++ log2,
       Raised (KeyError "0")).
Proof.
  split; [exact wf_df_header|]. split; [left; reflexivity|]. split; [reflexivity|].
  apply (handle_missing_values_raises_without_mode
           df_header "name"%string [] wf_df_header (or_introl eq_refl) eq_refl).
Defined.

(** A header without rows, and a name column that is all missing: both
    raise after the message of the numeric column. *)
Example handle_missing_values_raises_examples :
  handle_missing_values df_header = ([FilledMean "spend" nan], Raised (KeyError "0")) /\
  handle_missing_values df_unnamed = ([FilledMean "spend" 1], Raised (KeyError "0")).
Proof. split; vm_compute; reflexivity. Qed.

(** X6. [handle_missing_values] is idempotent: applied to the table it
    returned for a well-formed table, it returns that table again. *)
Theorem handle_missing_values_idempotent (df df1 : DataFrame) :
  wf df ->
  snd (handle_missing_values df) = Returned df1 ->
  snd (handle_missing_values df1) = Returned df1.
Proof.
  intros Hwf Hret. pose proof Hwf as (Hnd & _ & _).
  destruct (handle_missing_values df) as [log o] eqn:Hh. simpl in Hret. subst o.
  pose proof (HandleFacts.handle_missing_values_returned df df1 log Hnd Hh) as Hmode.
  rewrite (HandleFacts.handle_missing_values_spec df Hnd Hmode) in Hh.
  injection Hh as _ <-.
  pose proof (WfFacts.wf_imputed df Hwf) as (Hnd1 & _ & _).
  rewrite (HandleFacts.handle_missing_values_spec _ Hnd1).
  - simpl. f_equal. f_equal. rewrite map_map. apply map_ext.
    intros nc; simpl. f_equal. apply HandleMore.imputed_idempotent.
  - intros n v' Hin. simpl in Hin.
    apply (HandleMore.dropna_obj_imputed n v' df Hmode Hin).
Qed.

Lemma handle_missing_values_idempotent_witness :
  wf df_repeat /\
  snd (handle_missing_values df_repeat)
  = Returned {| index := range 5;
                data := [("name", ColObject [Some "ann"; Some "ann"; Some "ann";
                                             Some "ann"; Some "bob"]);
                         ("spend", ColFloat64 [1; 0x1.5555555555555p+0; 1;
                                               0x1.5555555555555p+0; 2]%float)]%string |} /\
  snd (handle_missing_values
         {| index := range 5;
            data := [("name", ColObject [Some "ann"; Some "ann"; Some "ann";
                                         Some "ann"; Some "bob"]);
                     ("spend", ColFloat64 [1; 0x1.5555555555555p+0; 1;
                                           0x1.5555555555555p+0; 2]%float)]%string |})
  = Returned {| index := range 5;
                data := [("name", ColObject [Some "ann"; Some "ann"; Some "ann";
                                             Some "ann"; Some "bob"]);
                         ("spend", ColFloat64 [1; 0x1.5555555555555p+0; 1;
                                               0x1.5555555555555p+0; 2]%float)]%string |}.
Proof.
  split; [exact wf_df_repeat|]. split; [reflexivity|].
  apply (handle_missing_values_idempotent df_repeat _ wf_df_repeat eq_refl).
Defined.



(** ** Further facts about remove_outliers *)
Module OutlierMore.
Import Pd Prepare.

Lemma isnan_of_spec (x : float) : Prim2SF x = S754_nan -> F64.isnan x = true.
Proof.
  intros H. unfold F64.isnan. now rewrite eqb_spec, H.
Qed.

Lemma isnan_spec (x : float) : F64.isnan x = true -> Prim2SF x = S754_nan.
Proof.
  intros H. now rewrite (HandleMore.isnan_eq x H).
Qed.

(** NaN propagates through the arithmetic of the scores. *)
Lemma add_nan_l (x y : float) : F64.isnan x = true -> F64.isnan (x + y) = true.
Proof.
  intros H. apply isnan_of_spec. rewrite add_spec, (isnan_spec x H). reflexivity.
Qed.

Lemma add_nan_r (x y : float) : F64.isnan y = true -> F64.isnan (x + y) = true.
Proof.
  intros H. apply isnan_of_spec. rewrite add_spec, (isnan_spec y H).
  now destruct (Prim2SF x).
Qed.

Lemma sub_nan_r (x y : float) : F64.isnan y = true -> F64.isnan (x - y) = true.
Proof.
  intros H. apply isnan_of_spec. rewrite sub_spec, (isnan_spec y H).
  now destruct (Prim2SF x).
Qed.

Lemma div_nan_l (x y : float) : F64.isnan x = true -> F64.isnan (x / y) = true.
Proof.
  intros H. apply isnan_of_spec. rewrite div_spec, (isnan_spec x H). reflexivity.
Qed.

Lemma sum_nan_acc (l : list float) (acc : float) :
  F64.isnan acc = true -> F64.isnan (fold_left add l acc) = true.
Proof.
  revert acc. induction l as [|x l IH]; intros acc H; simpl; trivial.
  apply IH. now apply add_nan_l.
Qed.

Lemma sum_nan (l : list float) (acc x : float) :
  In x l -> F64.isnan x = true -> F64.isnan (fold_left add l acc) = true.
Proof.
  revert acc. induction l as [|y l IH]; intros acc Hin Hx; simpl; [contradiction|].
  destruct Hin as [->|Hin].
  - apply sum_nan_acc. now apply add_nan_r.
  - now apply IH.
Qed.

(** In a column that holds a NaN every z-score is NaN. *)
Lemma z_score_nan (a : list float) (x : float) (i : nat) :
  In x a -> F64.isnan x = true -> Spec.z_score a i = nan.
Proof.
  intros Hin Hx. unfold Spec.z_score. destruct (Stats.isconst a); trivial.
  apply HandleMore.isnan_eq. apply div_nan_l, sub_nan_r.
  unfold Spec.population_mean. apply div_nan_l.
  unfold F64.sum. now apply (sum_nan a _ x).
Qed.

(** Only a positive threshold lies above an absolute value. *)
Lemma abs_ltb_positive (x t : float) :
  (abs x <? t)%float = true -> (0 <? t)%float = true.
Proof.
  rewrite !ltb_spec, abs_spec. change (Prim2SF 0) with (S754_zero false).
  unfold SFltb, SFcompare, SFabs.
  destruct (Prim2SF x) as [s|s| |s m e], (Prim2SF t) as [s'|s'| |s' m' e'];
    simpl; trivial; try discriminate; try (destruct s'; trivial; discriminate).
Qed.

(** When one numeric column fails every row, the mask is false
    everywhere. *)
Lemma mask_all_false (df : DataFrame) (t : float) (a : list float) :
  wf df -> In a (Spec.numeric_columns df) ->
  (forall i, (abs (Spec.z_score a i) <? t)%float = false) ->
  Forall (fun b => b = false) (outlier_mask df t).
Proof.
  intros Hwf Hin Hfail. rewrite (OutlierFacts.outlier_mask_spec t Hwf).
  apply Forall_map, Forall_forall. intros i _.
  unfold Spec.within_threshold. apply not_true_is_false. intros H.
  rewrite forallb_forall in H. specialize (H a Hin). now rewrite Hfail in H.
Qed.

Lemma numeric_column_In (df : DataFrame) (name : string) (c : Column) :
  In (name, c) (data df) -> is_number c = true ->
  In (to_float c) (Spec.numeric_columns df).
Proof.
  intros Hin Hnum. unfold Spec.numeric_columns.
  apply in_map with (f := fun nc => to_float (snd nc)) (x := (name, c)).
  apply filter_In. now split.
Qed.

Lemma len_all_false (df : DataFrame) (mask : list bool) :
  Forall (fun b => b = false) mask -> len (getitem_bool df mask) = 0.
Proof.
  intros H. unfold len, getitem_bool; simpl.
  now rewrite NpFacts.compress_all_false.
Qed.

Lemma missing_number (c : Column) :
  is_number c = true -> Spec.no_missing c = false ->
  exists x, In x (to_float c) /\ F64.isnan x = true.
Proof.
  unfold Spec.no_missing. destruct c as [z|v|b|o]; simpl; try discriminate; intros _ H.
  - exfalso. induction z as [|x z IH]; simpl in H; [discriminate|auto].
  - induction v as [|x v IH]; simpl in H; [discriminate|].
    destruct (F64.isnan x) eqn:E; simpl in H.
    + exists x. split; [now left|exact E].
    + destruct (IH H) as (y & Hy & Hnan). exists y. split; [now right|exact Hnan].
Qed.

End OutlierMore.

(** X8. With a missing value in any numeric column, [remove_outliers]
    removes every row of a well-formed table, at every threshold: the mean
    of that column is NaN, so are all its z-scores, and no NaN is below a
    threshold. *)
Theorem remove_outliers_missing_value_drops_all_rows
        (df : DataFrame) (t : float) (name : string) (c : Column) :
  wf df ->
  In (name, c) (data df) -> is_number c = true -> Spec.no_missing c = false ->
  exists df', snd (remove_outliers df t) = Returned df' /\ len df' = 0.
Proof.
  intros Hwf Hin Hnum Hmiss. eexists. split; [reflexivity|].
  destruct (OutlierMore.missing_number c Hnum Hmiss) as (x & Hx & Hnan).
  apply OutlierMore.len_all_false.
  apply (OutlierMore.mask_all_false df t (to_float c) Hwf).
  - now apply (OutlierMore.numeric_column_In df name).
  - intros i. rewrite (OutlierMore.z_score_nan (to_float c) x i Hx Hnan).
    apply F64Facts.ltb_nan_l.
Qed.

Lemma remove_outliers_missing_value_drops_all_rows_witness :
  wf df_gap /\
  In ("spend"%string, ColFloat64 [1; nan; 3; 4]%float) (data df_gap) /\
  is_number (ColFloat64 [1; nan; 3; 4]%float) = true /\
  Spec.no_missing (ColFloat64 [1; nan; 3; 4]%float) = false /\
  exists df', snd (remove_outliers df_gap 3) = Returned df' /\ len df' = 0.
Proof.
  split; [exact wf_df_gap|]. split; [left; reflexivity|].
  split; [reflexivity|]. split; [reflexivity|].
  apply (remove_outliers_missing_value_drops_all_rows
           df_gap 3 "spend"%string (ColFloat64 [1; nan; 3; 4]%float)
           wf_df_gap (or_introl eq_refl) eq_refl eq_refl).
Defined.

(** X9. Unless the threshold is positive, [remove_outliers] removes every
    row of a well-formed table that has a numeric column: a threshold that
    is zero, negative or NaN lies above no absolute z-score. *)
Theorem remove_outliers_needs_positive_threshold (df : DataFrame) (t : float) :
  wf df ->
  columns (select_dtypes is_number df) <> [] ->
  (0 <? t)%float = false ->
  exists df', snd (remove_outliers df t) = Returned df' /\ len df' = 0.
Proof.
  intros Hwf Hnum Ht. eexists. split; [reflexivity|].
  apply OutlierMore.len_all_false.
  unfold columns, select_dtypes in Hnum; simpl in Hnum.
  destruct (filter (fun nc => is_number (snd nc)) (data df)) as [|[n c] l] eqn:Hf;
    [contradiction|].
  assert (Hin : In (n, c) (filter (fun nc => is_number (snd nc)) (data df)))
    by (rewrite Hf; now left).
  apply filter_In in Hin. destruct Hin as [Hin Hc].
  apply (OutlierMore.mask_all_false df t (to_float c) Hwf).
  - now apply (OutlierMore.numeric_column_In df n).
  - intros i. apply not_true_is_false. intros H.
    apply OutlierMore.abs_ltb_positive in H. congruence.
Qed.

Lemma remove_outliers_needs_positive_threshold_witness :
  wf df_spread /\ columns (select_dtypes is_number df_spread) <> [] /\
  (0 <? 0)%float = false /\
  exists df', snd (remove_outliers df_spread 0) = Returned df' /\ len df' = 0.
Proof.
  split; [exact wf_df_spread|]. split; [discriminate|]. split; [reflexivity|].
  apply (remove_outliers_needs_positive_threshold df_spread 0 wf_df_spread).
  - discriminate.
  - reflexivity.
Defined.

(** X10. On a well-formed table without rows [remove_outliers] returns the
    table itself, whatever its columns and the threshold. *)
Theorem remove_outliers_no_rows (df : DataFrame) (t : float) :
  wf df -> len df = 0 ->
  snd (remove_outliers df t) = Returned df.
Proof.
  intros (_ & _ & Hal) H0. rewrite OutlierFacts.remove_outliers_returns. f_equal.
  pose proof (OutlierFacts.outlier_mask_length df t) as Hm.
  apply PdFacts.getitem_bool_all_true; trivial.
  rewrite H0 in Hm. destruct (outlier_mask df t); [constructor|discriminate].
Qed.

Lemma remove_outliers_no_rows_witness :
  wf df_header /\ len df_header = 0 /\
  snd (remove_outliers df_header 3) = Returned df_header.
Proof.
  split; [exact wf_df_header|]. split; [reflexivity|].
  apply (remove_outliers_no_rows df_header 3 wf_df_header eq_refl).
Defined.

(** X11. A well-formed table with a single row and a numeric column comes
    back from [remove_outliers] without rows, at every threshold: a column
    of one value is constant and its z-score is NaN. *)
Theorem remove_outliers_single_row (df : DataFrame) (t : float) :
  wf df -> len df = 1 ->
  columns (select_dtypes is_number df) <> [] ->
  exists df', snd (remove_outliers df t) = Returned df' /\ len df' = 0.
Proof.
  intros Hwf H1 Hnum. eexists. split; [reflexivity|].
  apply OutlierMore.len_all_false.
  unfold columns, select_dtypes in Hnum; simpl in Hnum.
  destruct (filter (fun nc => is_number (snd nc)) (data df)) as [|[n c] l] eqn:Hf;
    [contradiction|].
  assert (Hin : In (n, c) (filter (fun nc => is_number (snd nc)) (data df)))
    by (rewrite Hf; now left).
  apply filter_In in Hin. destruct Hin as [Hin Hc].
  apply (OutlierMore.mask_all_false df t (to_float c) Hwf).
  - now apply (OutlierMore.numeric_column_In df n).
  - intros i. destruct Hwf as (_ & _ & Hal).
    pose proof (proj1 (Forall_forall _ _) Hal _ Hin) as Hlen. simpl in Hlen.
    rewrite <- PdFacts.to_float_length, H1 in Hlen.
    destruct (to_float c) as [|x [|y l']]; try discriminate Hlen.
    destruct (F64.isnan x) eqn:E.
    + rewrite (OutlierMore.z_score_nan [x] x i (or_introl eq_refl) E).
      apply F64Facts.ltb_nan_l.
    + unfold Spec.z_score, Stats.isconst. simpl forallb.
      unfold F64.isnan in E. apply negb_false_iff in E. rewrite E. simpl.
      apply F64Facts.ltb_nan_l.
Qed.

Lemma remove_outliers_single_row_witness :
  wf df_one /\ len df_one = 1 /\ columns (select_dtypes is_number df_one) <> [] /\
  exists df', snd (remove_outliers df_one 3) = Returned df' /\ len df' = 0.
Proof.
  assert (Hwf : wf df_one).
  { repeat split.
    - repeat constructor; simpl; intuition discriminate.
    - discriminate.
    - repeat constructor. }
  split; [exact Hwf|]. split; [reflexivity|]. split; [discriminate|].
  apply (remove_outliers_single_row df_one 3 Hwf eq_refl). discriminate.
Defined.

(** ** Facts about main *)
Module MainFacts.
Import Pd Prepare Dtypes.

(** *** str.strip *)

Lemma lstrip_head (s : string) (c : ascii) (r : string) :
  PyStr.lstrip s = String c r -> PyStr.isspace c = false.
Proof.
  induction s as [|c0 s IH]; simpl; [discriminate|].
  destruct (PyStr.isspace c0) eqn:E; [exact IH|].
  intros H. injection H as <- _. exact E.
Qed.

Lemma rstrip_idempotent (s : string) : PyStr.rstrip (PyStr.rstrip s) = PyStr.rstrip s.
Proof.
  induction s as [|c s IH]; simpl; trivial.
  destruct (PyStr.rstrip s) as [|c2 r2] eqn:Hr.
  - destruct (PyStr.isspace c) eqn:E; simpl; trivial. now rewrite E.
  - change (PyStr.rstrip (String c (String c2 r2)))
      with (match PyStr.rstrip (String c2 r2) with
            | EmptyString => if PyStr.isspace c then EmptyString else String c EmptyString
            | r => String c r
            end).
    now rewrite IH.
Qed.

Lemma rstrip_head (c : ascii) (r : string) :
  PyStr.isspace c = false -> exists r', PyStr.rstrip (String c r) = String c r'.
Proof.
  intros E. simpl. destruct (PyStr.rstrip r) as [|c2 r2].
  - rewrite E. now exists EmptyString.
  - now exists (String c2 r2).
Qed.

Lemma lstrip_strip (s : string) : PyStr.lstrip (PyStr.strip s) = PyStr.strip s.
Proof.
  unfold PyStr.strip. destruct (PyStr.lstrip s) as [|c r] eqn:Hl; trivial.
  pose proof (lstrip_head s c r Hl) as E.
  destruct (rstrip_head c r E) as (r' & ->). simpl. now rewrite E.
Qed.

Lemma rstrip_strip (s : string) : PyStr.rstrip (PyStr.strip s) = PyStr.strip s.
Proof.
  unfold PyStr.strip. apply rstrip_idempotent.
Qed.

Lemma strip_idempotent (s : string) : PyStr.strip (PyStr.strip s) = PyStr.strip s.
Proof.
  unfold PyStr.strip at 1. now rewrite lstrip_strip, rstrip_strip.
Qed.

(** *** Renaming the columns *)

Lemma data_set_columns (g : string -> string) (df : DataFrame) :
  data (set_columns df (map g (columns df)))
  = map (fun nc => (g (fst nc), snd nc)) (data df).
Proof.
  unfold set_columns, columns; simpl.
  induction (data df) as [|nc d IH]; simpl; trivial. now rewrite IH.
Qed.

Lemma wf_set_columns (g : string -> string) (df : DataFrame) :
  wf df -> NoDup (map g (columns df)) ->
  wf (set_columns df (map g (columns df))).
Proof.
  intros (_ & Hne & Hal) Hnd. unfold wf, columns, len.
  rewrite data_set_columns. repeat split.
  - rewrite map_map; simpl. unfold columns in Hnd. now rewrite map_map in Hnd.
  - destruct (data df); [contradiction|discriminate].
  - simpl. apply Forall_map. exact Hal.
Qed.


(** *** Masks and missing cells *)

Lemma forallb_compress {A} (p : A -> bool) (mask : list bool) (l : list A) :
  forallb p l = true -> forallb p (Np.compress mask l) = true.
Proof.
  revert l. induction mask as [|b m IH]; intros [|x l]; simpl; trivial.
  intros H. apply andb_prop in H. destruct H as [Hx Hl].
  destruct b; simpl; [rewrite Hx|]; now apply IH.
Qed.

Lemma no_missing_compress (mask : list bool) (c : Column) :
  Spec.no_missing c = true -> Spec.no_missing (col_compress mask c) = true.
Proof.
  unfold Spec.no_missing. rewrite PdFacts.cells_col_compress.
  apply forallb_compress.
Qed.

Lemma no_missing_all_false (mask : list bool) (c : Column) :
  Forall (fun b => b = false) mask -> Spec.no_missing (col_compress mask c) = true.
Proof.
  intros H. unfold Spec.no_missing. rewrite PdFacts.cells_col_compress.
  now rewrite NpFacts.compress_all_false.
Qed.

Lemma dropna_compress_nil (mask : list bool) (v : list (option string)) :
  dropna_obj v = [] -> dropna_obj (Np.compress mask v) = [].
Proof.
  revert v. induction mask as [|b m IH]; intros [|[s|] v]; simpl; trivial;
    try discriminate.
  intros H. destruct b; simpl; now apply IH.
Qed.

(** After the outlier filter, a frame whose other columns are complete has
    no missing cell: a numeric column with a missing value empties the
    frame. *)
Lemma no_missing_after_outliers (df : DataFrame) (t : float) :
  wf df ->
  (forall nc, In nc (data df) -> is_number (snd nc) = false ->
              Spec.no_missing (snd nc) = true) ->
  forall nc, In nc (data (getitem_bool df (outlier_mask df t))) ->
             Spec.no_missing (snd nc) = true.
Proof.
  intros Hwf Hother nc' Hin. unfold getitem_bool in Hin; simpl in Hin.
  apply in_map_iff in Hin. destruct Hin as (nc & <- & Hin). simpl.
  destruct (forallb (fun nc => Spec.no_missing (snd nc))
              (filter (fun nc => is_number (snd nc)) (data df))) eqn:Hall.
  - apply no_missing_compress.
    destruct (is_number (snd nc)) eqn:Hnum; [|now apply Hother].
    rewrite forallb_forall in Hall. apply Hall. apply filter_In. now split.
  - apply no_missing_all_false.
    assert (Hex : exists x, In x (filter (fun nc => is_number (snd nc)) (data df))
                            /\ Spec.no_missing (snd x) = false).
    { clear -Hall. induction (filter _ (data df)) as [|x l IH]; simpl in Hall;
        [discriminate|].
      destruct (Spec.no_missing (snd x)) eqn:E; simpl in Hall.
      - destruct (IH Hall) as (y & Hy & Hm). exists y. split; [now right|exact Hm].
      - exists x. split; [now left|exact E]. }
    destruct Hex as ([n c] & Hx & Hmiss). apply filter_In in Hx.
    destruct Hx as [Hx Hnum]. simpl in *.
    destruct (OutlierMore.missing_number c Hnum Hmiss) as (x & Hxin & Hnan).
    apply (OutlierMore.mask_all_false df t (to_float c) Hwf).
    + now apply (OutlierMore.numeric_column_In df n).
    + intros i. rewrite (OutlierMore.z_score_nan (to_float c) x i Hxin Hnan).
      apply F64Facts.ltb_nan_l.
Qed.

(** An imputed column that is not numeric is complete. *)
Lemma no_missing_imputed_other (c : Column) :
  is_number c = false ->
  (forall v, c = ColObject v -> dropna_obj v <> []) ->
  Spec.no_missing (Spec.imputed c) = true.
Proof.
  intros Hnum Hmode. unfold Spec.no_missing.
  destruct c as [z|v|b|o]; try discriminate Hnum.
  - simpl. rewrite forallb_forall. intros x Hx.
    apply in_map_iff in Hx. now destruct Hx as (? & <- & _).
  - destruct (ModeFacts.mode_spec o (Hmode o eq_refl)) as (m & rest & Hm & _).
    simpl. rewrite Hm. simpl. rewrite forallb_forall. intros x Hx.
    apply in_map_iff in Hx. destruct Hx as (y & <- & Hy).
    apply in_map_iff in Hy. destruct Hy as (y0 & <- & _). now destruct y0.
Qed.

End MainFacts.

(** X12. Whenever the pipeline of [main] returns for a well-formed table
    whose trimmed column names are distinct, the table it returns is
    well-formed, has the dtypes of the input in the same order, has no more
    rows than the input, and has no missing cell in any column: what
    imputation could not fill is removed with all rows by the outlier
    filter. *)
Theorem main_returns_complete_table (df df' : DataFrame) :
  wf df -> NoDup (map PyStr.strip (columns df)) ->
  snd (main df) = Returned df' ->
  wf df' /\ dtypes df' = dtypes df /\ len df' <= len df /\
  forall nc, In nc (data df') -> Spec.no_missing (snd nc) = true.
Proof.
  intros Hwf Hnd Hret. rewrite StageFacts.main_outcome in Hret.
  pose proof (MainFacts.wf_set_columns PyStr.strip df Hwf Hnd) as Hwf0.
  set (d0 := set_columns df (map PyStr.strip (columns df))) in *.
  pose proof (WfFacts.wf_drop_duplicates d0 Hwf0) as Hwf1.
  set (d1 := drop_duplicates d0) in *.
  destruct (handle_missing_values d1) as [log [df2|e]] eqn:Hh; [|discriminate Hret].
  simpl in Hret. injection Hret as <-.
  pose proof Hwf1 as (Hnd1 & _ & _).
  pose proof (HandleFacts.handle_missing_values_returned d1 df2 log Hnd1 Hh) as Hmode.
  assert (Hdf2 : df2 = {| index := index d1;
                          data := map (fun nc => (fst nc, Spec.imputed (snd nc)))
                                      (data d1) |}).
  { apply HandleFacts.handle_missing_values_result; trivial. now rewrite Hh. }
  pose proof (WfFacts.wf_imputed d1 Hwf1) as Hwf2. rewrite <- Hdf2 in Hwf2.
  assert (Hlen1 : len d1 <= len d0).
  { unfold d1, drop_duplicates. destruct (empty d0); [lia|].
    apply PdFacts.len_getitem_bool_le. }
  assert (Hdt1 : dtypes d1 = dtypes d0).
  { unfold d1, drop_duplicates. destruct (empty d0); trivial.
    unfold dtypes, getitem_bool; simpl. rewrite map_map.
    apply map_ext. intros nc. apply WfFacts.dtype_col_compress. }
  assert (Hdt0 : dtypes d0 = dtypes df).
  { unfold dtypes, d0. rewrite MainFacts.data_set_columns, map_map. reflexivity. }
  repeat split.
  - apply WfFacts.wf_getitem_bool; trivial. apply OutlierFacts.outlier_mask_length.
  - apply WfFacts.wf_getitem_bool; trivial. apply OutlierFacts.outlier_mask_length.
  - apply WfFacts.wf_getitem_bool; trivial. apply OutlierFacts.outlier_mask_length.
  - rewrite <- Hdt0, <- Hdt1. unfold dtypes, getitem_bool; simpl. rewrite map_map.
    rewrite Hdf2; simpl. rewrite !map_map. apply map_ext. intros nc; simpl.
    now rewrite WfFacts.dtype_col_compress, WfFacts.dtype_imputed.
  - pose proof (PdFacts.len_getitem_bool_le df2 (outlier_mask df2 default_z_threshold)).
    assert (len df2 = len d1) by (now rewrite Hdf2).
    assert (len d0 = len df) by reflexivity. lia.
  - apply MainFacts.no_missing_after_outliers; trivial.
    intros nc2 Hin2 Hnum2. rewrite Hdf2 in Hin2; simpl in Hin2.
    apply in_map_iff in Hin2. destruct Hin2 as ([n c] & <- & Hin1). simpl in *.
    rewrite HandleFacts.imputed_is_number in Hnum2.
    apply MainFacts.no_missing_imputed_other; trivial.
    intros v ->. now apply (Hmode n v).
Qed.

Lemma main_returns_complete_table_witness :
  wf df_repeat /\ NoDup (map PyStr.strip (columns df_repeat)) /\
  snd (main df_repeat)
  = Returned {| index := [0; 1; 4]%Z;
                data := [("name", ColObject [Some "ann"; Some "ann"; Some "bob"]);
                         ("spend", ColFloat64 [1; 1.5; 2]%float)]%string |} /\
  wf {| index := [0; 1; 4]%Z;
        data := [("name", ColObject [Some "ann"; Some "ann"; Some "bob"]);
                 ("spend", ColFloat64 [1; 1.5; 2]%float)]%string |} /\
  dtypes {| index := [0; 1; 4]%Z;
            data := [("name", ColObject [Some "ann"; Some "ann"; Some "bob"]);
                     ("spend", ColFloat64 [1; 1.5; 2]%float)]%string |}
  = dtypes df_repeat /\
  3 <= len df_repeat /\
  forall nc,
    In nc [("name", ColObject [Some "ann"; Some "ann"; Some "bob"]);
           ("spend", ColFloat64 [1; 1.5; 2]%float)]%string ->
    Spec.no_missing (snd nc) = true.
Proof.
  assert (Hnd : NoDup (map PyStr.strip (columns df_repeat)))
    by (repeat constructor; simpl; intuition discriminate).
  split; [exact wf_df_repeat|]. split; [exact Hnd|]. split; [reflexivity|].
  apply (main_returns_complete_table
           df_repeat
           {| index := [0; 1; 4]%Z;
              data := [("name", ColObject [Some "ann"; Some "ann"; Some "bob"]);
                       ("spend", ColFloat64 [1; 1.5; 2]%float)]%string |}
           wf_df_repeat Hnd eq_refl).
Defined.

(** X13. The pipeline of [main] raises [KeyError] for a well-formed table
    whose trimmed column names are distinct when a categorical column has no
    non-missing value; a file with a header and no data rows is such a
    table.  Nothing is returned, so nothing is saved. *)
Theorem main_raises_without_mode
        (df : DataFrame) (name : string) (v : list (option string)) :
  wf df -> NoDup (map PyStr.strip (columns df)) ->
  In (name, ColObject v) (data df) -> dropna_obj v = [] ->
  snd (main df) = Raised (KeyError "0").
Proof.
  intros Hwf Hnd Hin Hnil. rewrite StageFacts.main_outcome.
  pose proof (MainFacts.wf_set_columns PyStr.strip df Hwf Hnd) as Hwf0.
  assert (Hin0 : In (PyStr.strip name, ColObject v)
                    (data (set_columns df (map PyStr.strip (columns df))))).
  { rewrite MainFacts.data_set_columns. apply in_map_iff.
    exists (name, ColObject v). now split. }
  set (d0 := set_columns df (map PyStr.strip (columns df))) in *.
  pose proof (WfFacts.wf_drop_duplicates d0 Hwf0) as (Hnd1 & _ & _).
  assert (Hin1 : exists v1, In (PyStr.strip name, ColObject v1) (data (drop_duplicates d0))
                            /\ dropna_obj v1 = []).
  { unfold drop_duplicates. destruct (empty d0).
    - exists v. now split.
    - exists (Np.compress (map negb (duplicated d0)) v). split.
      + unfold getitem_bool; simpl. apply in_map_iff.
        exists (PyStr.strip name, ColObject v). now split.
      + now apply MainFacts.dropna_compress_nil. }
  destruct Hin1 as (v1 & Hin1 & Hnil1).
  set (d1 := drop_duplicates d0) in *.
  unfold handle_missing_values. rewrite (HandleFacts.numeric_pass d1 Hnd1).
  destruct (HandleMore.after_numeric_pass d1 _ v1 Hnd1 Hin1) as [Hnd2 Hin2].
  destruct (HandleMore.mode_pass_raises _ _ v1 Hnd2 Hin2 Hnil1) as (log2 & Hpass).
  unfold bind at 1. rewrite Hpass. reflexivity.
Qed.

Lemma main_raises_without_mode_witness :
  wf df_padded_header /\ NoDup (map PyStr.strip (columns df_padded_header)) /\
  In (" name"%string, ColObject []) (data df_padded_header) /\
  dropna_obj [] = [] /\
  snd (main df_padded_header) = Raised (KeyError "0").
Proof.
  assert (Hwf : wf df_padded_header).
  { repeat split.
    - repeat constructor; simpl; intuition discriminate.
    - discriminate.
    - repeat constructor. }
  assert (Hnd : NoDup (map PyStr.strip (columns df_padded_header)))
    by (repeat constructor; simpl; intuition discriminate).
  split; [exact Hwf|]. split; [exact Hnd|].
  split; [left; reflexivity|]. split; [reflexivity|].
  apply (main_raises_without_mode df_padded_header " name"%string [] Hwf Hnd
           (or_introl eq_refl) eq_refl).
Defined.

(** X14. The column names that [main] hands on are clean: whenever its
    pipeline returns, each column name of the result is left unchanged by
    [strip], so it has no leading and no trailing whitespace, and trimming
    the names again would rename nothing. *)
Theorem main_column_names_are_clean (df df' : DataFrame) :
  snd (main df) = Returned df' ->
  Forall (fun name => PyStr.strip name = name /\
                      PyStr.lstrip name = name /\ PyStr.rstrip name = name)
         (columns df').
Proof.
  rewrite StageFacts.main_outcome.
  destruct (snd (handle_missing_values _)) as [df2|e] eqn:Hh; [|discriminate].
  intros H. injection H as <-.
  rewrite PdFacts.columns_getitem_bool.
  rewrite (StageFacts.handle_missing_values_columns _ _ Hh).
  rewrite StageFacts.columns_drop_duplicates.
  rewrite StageFacts.columns_set_columns
    by (unfold columns; now rewrite !length_map).
  apply Forall_map, Forall_forall. intros name _. repeat split.
  - apply MainFacts.strip_idempotent.
  - apply MainFacts.lstrip_strip.
  - apply MainFacts.rstrip_strip.
Qed.

Lemma main_column_names_are_clean_witness :
  snd (main df_padded)
  = Returned {| index := [];
                data := [("id", ColInt64 []); ("name", ColObject []);
                         ("spend", ColFloat64 [])]%string |} /\
  Forall (fun name => PyStr.strip name = name /\
                      PyStr.lstrip name = name /\ PyStr.rstrip name = name)
         ["id"; "name"; "spend"]%string.
Proof.
  split; [reflexivity|].
  apply (main_column_names_are_clean
           df_padded
           {| index := [];
              data := [("id", ColInt64 []); ("name", ColObject []);
                       ("spend", ColFloat64 [])]%string |}
           eq_refl).
Defined.




